(** * Rotor machine simulator: rotor.py and Rotor_Machine.py

    A shallow embedding of the two Python modules.  Python integers are [Z],
    lists are [list], [%] is [Z.modulo] guarded against a zero divisor,
    list subscripts follow Python's rules for negative and out-of-range
    indices, and every method is a computation in a state-and-exception
    monad in which, as in Python, a raised exception keeps the mutations
    made before it. *)

From Stdlib Require Import ZArith Lia String.
From stdpp Require Import base list.

Local Open Scope string_scope.
Local Open Scope Z_scope.

(** ** Exceptions and the method monad *)

Inductive exn : Type :=
| AssertionError (msg : string)
| TypeError (msg : string)
| IndexError
| ZeroDivisionError
| AttributeError (cls attr : string)
| NameError (name : string)
| UnboundLocalError (name : string)
| SystemError (msg : string).

Inductive result (A : Type) : Type :=
| Ok (a : A)
| Raise (e : exn).
Arguments Ok {A} a.
Arguments Raise {A} e.

(** A method body over a mutable object (or store) of type [S]. *)
Definition M (S A : Type) : Type := S -> result A * S.

Definition ret {S A} (a : A) : M S A := fun s => (Ok a, s).
Definition raise {S A} (e : exn) : M S A := fun s => (Raise e, s).
Definition bind {S A B} (m : M S A) (k : A -> M S B) : M S B :=
  fun s => match m s with
           | (Ok a, s') => k a s'
           | (Raise e, s') => (Raise e, s')
           end.
Definition lift {S A} (r : result A) : M S A := fun s => (r, s).
Definition gets {S A} (f : S -> A) : M S A := fun s => (Ok (f s), s).
Definition modify {S} (f : S -> S) : M S unit := fun s => (Ok tt, f s).

Notation "'let!' x ':=' m 'in' k" := (bind m (fun x => k))
  (at level 10, x name, m at level 100, k at level 200).
Notation "m '>>' k" := (bind m (fun _ => k))
  (at level 90, right associativity).

(** [for x in xs: body] where the body may [break]. *)
Inductive flow : Type := Next | Break.

Fixpoint for_in {S B} (xs : list B) (body : B -> M S flow) : M S unit :=
  match xs with
  | [] => ret tt
  | x :: rest =>
      let! f := body x in
      match f with
      | Next => for_in rest body
      | Break => ret tt
      end
  end.

(** [for x in xs: acc = body(x, acc)]: a loop that threads a local. *)
Fixpoint for_fold {S B C} (xs : list B) (body : B -> C -> M S C) (acc : C)
  : M S C :=
  match xs with
  | [] => ret acc
  | x :: rest => let! acc' := body x acc in for_fold rest body acc'
  end.

(** [assert c, msg]: evaluated only when [__debug__] holds (the interpreter's
    default); the condition itself may raise. *)
Definition assert_ {S} (debug : bool) (c : M S bool) (msg : string) : M S unit :=
  if debug then
    let! b := c in
    if b then ret tt else raise (AssertionError msg)
  else ret tt.

(** ** Python integer and list primitives *)

(** [a % b]: the sign of the result follows the divisor, as [Z.modulo]. *)
Definition py_mod (a b : Z) : result Z :=
  if b =? 0 then Raise ZeroDivisionError else Ok (a mod b).

(** [range(a, b)] *)
Definition py_range (a b : Z) : list Z :=
  map (fun k => a + Z.of_nat k) (seq 0 (Z.to_nat (b - a))).

(** [range(a, b, -1)] *)
Definition py_range_down (a b : Z) : list Z :=
  map (fun k => a - Z.of_nat k) (seq 0 (Z.to_nat (a - b))).

(** Attribute and name lookup in a table of the values of one type. *)
Fixpoint assoc {A} (name : string) (tbl : list (string * A)) : option A :=
  match tbl with
  | [] => None
  | (k, v) :: rest => if String.eqb name k then Some v else assoc name rest
  end.

Definition getattr {S A} (cls : string) (tbl : list (string * A))
  (name : string) : M S A :=
  match assoc name tbl with
  | Some v => ret v
  | None => raise (AttributeError cls name)
  end.

Definition load_global {S A} (tbl : list (string * A)) (name : string) : M S A :=
  match assoc name tbl with
  | Some v => ret v
  | None => raise (NameError name)
  end.

Definition len {A} (l : list A) : Z := Z.of_nat (length l).

(** Resolution of a subscript: negative indices count from the end. *)
Definition py_index {A} (l : list A) (i : Z) : result nat :=
  if (0 <=? i) && (i <? len l) then Ok (Z.to_nat i)
  else if (- len l <=? i) && (i <? 0) then Ok (Z.to_nat (len l + i))
  else Raise IndexError.

(** [l[i]] *)
Definition py_getitem {A} (l : list A) (i : Z) : result A :=
  match py_index l i with
  | Ok k => match l !! k with Some a => Ok a | None => Raise IndexError end
  | Raise e => Raise e
  end.

(** [l[i] = a] *)
Definition py_setitem {A} (l : list A) (i : Z) (a : A) : result (list A) :=
  match py_index l i with
  | Ok k => Ok (<[k := a]> l)
  | Raise e => Raise e
  end.

(** [l[i, j]]: a list cannot be subscripted by a tuple. *)
Definition py_getitem_tuple {A} (l : list A) (ij : Z * Z) : result (list A) :=
  Raise (TypeError "list indices must be integers or slices, not tuple").

(** ** rotor.py: class rotor *)

Record rotor : Type := mk_rotor {
  size : Z;
  wiring : list Z;
  reverse_wiring : list Z;
  position : Z;
  reversed : bool
}.

Definition put_position (p : Z) (r : rotor) : rotor :=
  mk_rotor (size r) (wiring r) (reverse_wiring r) p (reversed r).
Definition put_reversed (b : bool) (r : rotor) : rotor :=
  mk_rotor (size r) (wiring r) (reverse_wiring r) (position r) b.
Definition put_size (n : Z) (r : rotor) : rotor :=
  mk_rotor n (wiring r) (reverse_wiring r) (position r) (reversed r).
Definition put_wiring (w : list Z) (r : rotor) : rotor :=
  mk_rotor (size r) w (reverse_wiring r) (position r) (reversed r).
Definition put_reverse_wiring (w : list Z) (r : rotor) : rotor :=
  mk_rotor (size r) (wiring r) w (position r) (reversed r).

Definition get_size : M rotor Z := gets size.
Definition get_wiring : M rotor (list Z) := gets wiring.
Definition get_reverse_wiring : M rotor (list Z) := gets reverse_wiring.
Definition get_position : M rotor Z := gets position.
Definition get_is_reversed : M rotor bool := gets reversed.

(** [reverse_rotor]: its body names [wiring], [reverse_wiring] and
    [reversed] without [self.]; the first two are unbound globals (the
    right-hand side of the first loop and the target of the second both
    start by loading [reverse_wiring]) and the third is a local read before
    its assignment. *)
Definition reverse_rotor : M rotor unit :=
  let! n := gets size in
  for_in (py_range 0 n) (fun j => raise (NameError "reverse_wiring")) >>
  for_in (py_range 0 n) (fun i => raise (NameError "reverse_wiring")) >>
  raise (UnboundLocalError "reversed").

(** [set_position]: [self.position = position % self.size] *)
Definition set_position (p : Z) : M rotor unit :=
  let! n := gets size in
  let! q := lift (py_mod p n) in
  modify (put_position q).

(** The body of the loop of [set_wiring], at index [i]. *)
Definition set_wiring_body (debug : bool) (w : list Z) (i : Z) : M rotor flow :=
  let! sw := gets wiring in
  let! j := lift (py_getitem sw i) in
  assert_ debug (let! n := gets size in ret ((0 <=? j) && (j <? n)))
    "Wiring value outside valid range" >>
  assert_ debug (let! seen := lift (py_getitem_tuple w (0, i)) in
                 ret (negb (existsb (Z.eqb j) seen)))
    "Duplicate wiring value" >>
  let! rw := gets reverse_wiring in
  let! rw' := lift (py_setitem rw j i) in
  modify (put_reverse_wiring rw') >>
  ret Next.

(** [set_wiring] *)
Definition set_wiring (debug : bool) (w : list Z) : M rotor unit :=
  modify (put_position 0) >>
  modify (put_reversed false) >>
  modify (put_size (len w)) >>
  assert_ debug (let! n := gets size in ret (0 <? n)) "Wiring sequence is empty" >>
  modify (put_wiring w) >>
  (let! n := gets size in modify (put_reverse_wiring (py_range 0 n))) >>
  let! n := gets size in
  for_in (py_range 0 n) (set_wiring_body debug w).

(** [rotor(wiring)]: a fresh object, none of whose attributes is read before
    [set_wiring] assigns it; the object is lost when [__init__] raises. *)
Definition blank_rotor : rotor := mk_rotor 0 [] [] 0 false.

Definition rotor_new (debug : bool) (w : list Z) : result rotor :=
  match set_wiring debug w blank_rotor with
  | (Ok _, r) => Ok r
  | (Raise e, _) => Raise e
  end.

(** [step]: [self.position = (self.position + steps) % self.size] *)
Definition step (steps : Z) : M rotor unit :=
  let! p := gets position in
  let! n := gets size in
  let! q := lift (py_mod (p + steps) n) in
  modify (put_position q).

(** [encode] *)
Definition encode (debug : bool) (x : Z) : M rotor Z :=
  assert_ debug (let! n := gets size in ret ((0 <=? x) && (x <? n)))
    "Rotor input outside valid range" >>
  let! w := gets wiring in
  let! p := gets position in
  let! n := gets size in
  let! k := lift (py_mod (x - p) n) in
  let! y := lift (py_getitem w k) in
  let! p' := gets position in
  let! n' := gets size in
  lift (py_mod (y + p') n').

(** [decode] *)
Definition decode (debug : bool) (y : Z) : M rotor Z :=
  assert_ debug (let! n := gets size in ret ((0 <=? y) && (y <? n)))
    "Rotor input outside valid range" >>
  let! w := gets reverse_wiring in
  let! p := gets position in
  let! n := gets size in
  let! k := lift (py_mod (y - p) n) in
  let! x := lift (py_getitem w k) in
  let! p' := gets position in
  let! n' := gets size in
  lift (py_mod (x + p') n').

(** ** Rotor_Machine.py: rotor objects held by reference

    The module opens with [from types import List], which raises ImportError
    ([List] lives in [typing]), and with [import rotor], which binds the name
    [rotor] to the module and not to the class.  The classes are modelled as
    their method bodies read, over objects of class [rotor].

    Machines and banks keep references to rotor objects; the store maps a
    reference to the object's state, so that two slots holding the same
    rotor share its position.  A reference always denotes an object: the
    [SystemError] of [on_rotor] stands for a store that lacks it.  A setter
    returns the configured machine; the attributes a setter had assigned
    before raising are not tracked. *)

Abbreviation loc := nat.
Abbreviation heap := (list rotor).

Definition on_rotor {A} (l : loc) (m : M rotor A) : M heap A :=
  fun h => match h !! l with
           | Some r => let (a, r') := m r in (a, <[l := r']> h)
           | None => (Raise (SystemError "no such object"), h)
           end.

(** The methods of class rotor that take a symbol and return a symbol, and
    the other attributes of a rotor instance. *)
Definition rotor_symbol_methods (debug : bool) : list (string * (Z -> M rotor Z)) :=
  [("encode", encode debug); ("decode", decode debug)].

Definition rotor_other_attributes : list (string * unit) :=
  map (fun n => (n, tt))
    ["__init__"; "get_size"; "get_wiring"; "get_reverse_wiring";
     "get_position"; "get_is_reversed"; "reverse_rotor"; "set_position";
     "set_wiring"; "step"; "size"; "wiring"; "reverse_wiring"; "position";
     "reversed"].

(** [r.name(arg)] on a rotor object, the result being used as a symbol: the
    attribute is looked up before the argument is evaluated.  The source
    makes such calls with the names [encrypt] and [decrypt] only. *)
Definition call_rotor (debug : bool) (l : loc) (name : string) (arg : M heap Z)
  : M heap Z :=
  match assoc name (rotor_symbol_methods debug) with
  | Some f => let! x := arg in on_rotor l (f x)
  | None =>
      match assoc name rotor_other_attributes with
      | Some _ => raise (TypeError "not a method from a symbol to a symbol")
      | None => raise (AttributeError "rotor" name)
      end
  end.

(** Names bound at the top level of Rotor_Machine.py: the module [rotor],
    [List] and the four classes; none of them is a rotor or a rotor list. *)
Definition global_rotor_lists : list (string * list loc) := [].
Definition global_rotors : list (string * loc) := [].

(** ** Rotor_Machine.py: class RotorBank *)

Module RotorBank.

Record t : Type := mk {
  rotors : list loc;
  num_rotors : Z;
  rotor_size : Z
}.

Definition blank : t := mk [] 0 0.

(** [set_rotors] *)
Definition set_rotors (debug : bool) (rs : list loc) (self : t) : M heap t :=
  let! r0 := lift (py_getitem rs 0) in
  let! n := on_rotor r0 get_size in
  (if debug then
     for_in rs (fun r =>
       assert_ debug (let! k := on_rotor r get_size in ret (k =? n)) "" >>
       ret Next)
   else ret tt) >>
  ret (mk rs (len rs) n).

(** [RotorBank(rotors)] *)
Definition new (debug : bool) (rs : list loc) : M heap t :=
  set_rotors debug rs blank.

(** [set_positions] *)
Definition set_positions (debug : bool) (self : t) (positions : list Z)
  : M heap unit :=
  for_in (py_range 0 (len (rotors self))) (fun i =>
    assert_ debug (ret ((0 <=? i) && (i <=? rotor_size self))) "" >>
    let! r := lift (py_getitem (rotors self) i) in
    let! p := lift (py_getitem positions i) in
    on_rotor r (set_position p) >>
    ret Next).

(** [reset_positions] *)
Definition reset_positions (debug : bool) (self : t) : M heap unit :=
  set_positions debug self (map (fun _ => 0) (py_range 0 (num_rotors self))).

(** [set_rotor_position] *)
Definition set_rotor_position (self : t) (rotor position : Z) : M heap unit :=
  let! r := lift (py_getitem (rotors self) rotor) in
  on_rotor r (set_position position).

(** [get_positions]: the result list starts empty and is assigned by
    index. *)
Definition get_positions (self : t) : M heap (list Z) :=
  for_fold (py_range 0 (num_rotors self)) (fun i positions =>
    let! r := lift (py_getitem (rotors self) i) in
    let! p := on_rotor r get_position in
    lift (py_setitem positions i p)) [].

(** [get_rotor_position] *)
Definition get_rotor_position (self : t) (rotor : Z) : M heap Z :=
  let! r := lift (py_getitem (rotors self) rotor) in
  on_rotor r get_position.

(** [step_rotor] *)
Definition step_rotor (self : t) (rotor steps : Z) : M heap unit :=
  let! r := lift (py_getitem (rotors self) rotor) in
  on_rotor r (step steps).

(** [encrypt] *)
Definition encrypt (debug : bool) (self : t) (x : Z) : M heap Z :=
  for_fold (rotors self) (fun r x => call_rotor debug r "encrypt" (ret x)) x.

(** [decrypt] *)
Definition decrypt (debug : bool) (self : t) (y : Z) : M heap Z :=
  for_fold (py_range_down (num_rotors self - 1) (-1)) (fun i y =>
    let! r := lift (py_getitem (rotors self) i) in
    call_rotor debug r "decrypt" (ret y)) y.

(** [encrypt_with_intermediates] *)
Definition encrypt_with_intermediates (debug : bool) (self : t) (x : Z)
  : M heap (list Z) :=
  let y := py_range 0 (num_rotors self + 1) in
  let! y := lift (py_setitem y 0 x) in
  for_fold (py_range 0 (num_rotors self)) (fun i y =>
    let! r := lift (py_getitem (rotors self) i) in
    let! v := call_rotor debug r "encrypt" (lift (py_getitem y i)) in
    lift (py_setitem y (i + 1) v)) y.

(** [decrypt_with_intermediates]: the first rotor taken is
    [self.rotors[self.num_rotors]]. *)
Definition decrypt_with_intermediates (debug : bool) (self : t) (y : Z)
  : M heap (list Z) :=
  let x := py_range 0 (num_rotors self + 1) in
  let! x := lift (py_setitem x 0 y) in
  for_fold (py_range 0 (num_rotors self)) (fun i x =>
    let! r := lift (py_getitem (rotors self) (num_rotors self - i)) in
    let! v := call_rotor debug r "decrypt" (lift (py_getitem x i)) in
    lift (py_setitem x (i + 1) v)) x.

End RotorBank.

(** ** Rotor_Machine.py: class RotorMachine *)

Module RotorMachine.

(** [set_cipher_rotors]: [self.cipher_rotors = RotorBank(rotors)] *)
Definition set_cipher_rotors (debug : bool) (rs : list loc)
  : M heap RotorBank.t :=
  RotorBank.new debug rs.

End RotorMachine.

(** ** Rotor_Machine.py: class SIGABAMachine *)

Module SIGABAMachine.

Record t : Type := mk {
  cipher_rotors : list loc;
  num_cipher_rotors : Z;
  cipher_rotor_size : Z;
  control_rotors : list loc;
  num_control_rotors : Z;
  control_rotor_size : Z;
  index_map : list Z;
  control_inputs : list Z;
  control_step_position : Z;
  control_step_order : list Z
}.

(** The attributes of an instance, by the type of their value: those the
    setters assign.  [self.name] is [self_int], [self_list] or
    [self_rotors] at [name]. *)
Definition int_attributes (self : t) : list (string * Z) :=
  [("num_cipher_rotors", num_cipher_rotors self);
   ("cipher_rotor_size", cipher_rotor_size self);
   ("num_control_rotors", num_control_rotors self);
   ("control_rotor_size", control_rotor_size self);
   ("control_step_position", control_step_position self)].

Definition list_attributes (self : t) : list (string * list Z) :=
  [("index_map", index_map self);
   ("control_inputs", control_inputs self);
   ("control_step_order", control_step_order self)].

Definition rotors_attributes (self : t) : list (string * list loc) :=
  [("cipher_rotors", cipher_rotors self);
   ("control_rotors", control_rotors self)].

Definition self_int (self : t) (name : string) : M heap Z :=
  getattr "SIGABAMachine" (int_attributes self) name.
Definition self_list (self : t) (name : string) : M heap (list Z) :=
  getattr "SIGABAMachine" (list_attributes self) name.
Definition self_rotors (self : t) (name : string) : M heap (list loc) :=
  getattr "SIGABAMachine" (rotors_attributes self) name.

Definition blank : t := mk [] 0 0 [] 0 0 [] [] 0 [].

(** [set_cipher_rotors] *)
Definition set_cipher_rotors (debug : bool) (rs : list loc) (self : t)
  : M heap t :=
  let! r0 := lift (py_getitem rs 0) in
  let! n := on_rotor r0 get_size in
  (if debug then
     for_in rs (fun r =>
       assert_ debug (let! k := on_rotor r get_size in ret (k =? n)) "" >>
       ret Next)
   else ret tt) >>
  ret (mk rs (len rs) n (control_rotors self) (num_control_rotors self)
          (control_rotor_size self) (index_map self) (control_inputs self)
          (control_step_position self) (control_step_order self)).

(** [set_control_rotors] *)
Definition set_control_rotors (debug : bool) (rs : list loc) (self : t)
  : M heap t :=
  let! r0 := lift (py_getitem rs 0) in
  let! n := on_rotor r0 get_size in
  (if debug then
     for_in rs (fun r =>
       assert_ debug (let! k := on_rotor r get_size in ret (k =? n)) "" >>
       ret Next)
   else ret tt) >>
  ret (mk (cipher_rotors self) (num_cipher_rotors self)
          (cipher_rotor_size self) rs (len rs) n (index_map self)
          (control_inputs self) (control_step_position self)
          (control_step_order self)).

(** [set_index_map] *)
Definition set_index_map (debug : bool) (im : list Z) (self : t) : M heap t :=
  assert_ debug (ret (len im =? control_rotor_size self)) "" >>
  ret (mk (cipher_rotors self) (num_cipher_rotors self)
          (cipher_rotor_size self) (control_rotors self)
          (num_control_rotors self) (control_rotor_size self) im
          (control_inputs self) (control_step_position self)
          (control_step_order self)).

(** [set_control_inputs]: the check subscripts the builtin [input]. *)
Definition set_control_inputs (debug : bool) (cs : list Z) (self : t)
  : M heap t :=
  (if debug then
     for_in cs (fun i =>
       assert_ debug
         (raise (TypeError "'builtin_function_or_method' object is not subscriptable"))
         "" >>
       ret Next)
   else ret tt) >>
  ret (mk (cipher_rotors self) (num_cipher_rotors self)
          (cipher_rotor_size self) (control_rotors self)
          (num_control_rotors self) (control_rotor_size self)
          (index_map self) cs (control_step_position self)
          (control_step_order self)).

(** [set_control_step_position] *)
Definition set_control_step_position (position : Z) (self : t) : M heap t :=
  ret (mk (cipher_rotors self) (num_cipher_rotors self)
          (cipher_rotor_size self) (control_rotors self)
          (num_control_rotors self) (control_rotor_size self)
          (index_map self) (control_inputs self) position
          (control_step_order self)).

(** [set_control_step_order] *)
Definition set_control_step_order (order : list Z) (self : t) : M heap t :=
  ret (mk (cipher_rotors self) (num_cipher_rotors self)
          (cipher_rotor_size self) (control_rotors self)
          (num_control_rotors self) (control_rotor_size self)
          (index_map self) (control_inputs self)
          (control_step_position self) order).

(** [SIGABAMachine(cipher_rotors, control_rotors, index_map, ...)]; the
    defaults are [control_inputs = [5,6,7,8]], [control_step_position = 0]
    and [control_step_order = [2,3,1]]. *)
Definition new (debug : bool) (cipher control : list loc) (im : list Z)
  (cs : list Z) (position : Z) (order : list Z) : M heap t :=
  let! self := set_cipher_rotors debug cipher blank in
  let! self := set_control_rotors debug control self in
  let! self := set_index_map debug im self in
  let! self := set_control_inputs debug cs self in
  let! self := set_control_step_position position self in
  set_control_step_order order self.

(** [reset_rotors] *)
Definition reset_rotors (self : t) : M heap unit :=
  (let! rs := self_rotors self "cipher_rotors" in
   for_in rs (fun r => on_rotor r (set_position 0) >> ret Next)) >>
  let! rs := self_rotors self "control_rotors" in
  for_in rs (fun r => on_rotor r (set_position 0) >> ret Next).

(** [set_cipher_rotor_positions]: the loop subscripts the bare name
    [cipher_rotors]. *)
Definition set_cipher_rotor_positions (debug : bool) (self : t)
  (cipher_positions : list Z) : M heap unit :=
  assert_ debug (let! n := self_int self "num_cipher_rotors" in
                 ret (len cipher_positions =? n)) "" >>
  let! n := self_int self "num_cipher_rotors" in
  for_in (py_range 0 n) (fun i =>
    let! rs := load_global global_rotor_lists "cipher_rotors" in
    let! r := lift (py_getitem rs i) in
    let! p := lift (py_getitem cipher_positions i) in
    on_rotor r (set_position p) >>
    ret Next).

(** [set_control_rotor_positions]: the loop subscripts the bare name
    [control_rotors]. *)
Definition set_control_rotor_positions (debug : bool) (self : t)
  (control_positions : list Z) : M heap unit :=
  assert_ debug (let! n := self_int self "num_control_rotors" in
                 ret (len control_positions =? n)) "" >>
  let! n := self_int self "num_control_rotors" in
  for_in (py_range 0 n) (fun i =>
    let! rs := load_global global_rotor_lists "control_rotors" in
    let! r := lift (py_getitem rs i) in
    let! p := lift (py_getitem control_positions i) in
    on_rotor r (set_position p) >>
    ret Next).

(** [set_rotor_positions] *)
Definition set_rotor_positions (debug : bool) (self : t)
  (cipher_positions control_positions : list Z) : M heap unit :=
  set_cipher_rotor_positions debug self cipher_positions >>
  set_control_rotor_positions debug self control_positions.

(** [set_cipher_rotor_position] *)
Definition set_cipher_rotor_position (self : t) (rotor position : Z)
  : M heap unit :=
  let! rs := self_rotors self "cipher_rotors" in
  let! r := lift (py_getitem rs rotor) in
  on_rotor r (set_position position).

(** [set_control_rotor_position] *)
Definition set_control_rotor_position (self : t) (rotor position : Z)
  : M heap unit :=
  let! rs := self_rotors self "control_rotors" in
  let! r := lift (py_getitem rs rotor) in
  on_rotor r (set_position position).

(** [encipher]: the loop ranges over the bare name [cipher_rotors]. *)
Definition encipher (debug : bool) (self : t) (x : Z) : M heap Z :=
  let! rs := load_global global_rotor_lists "cipher_rotors" in
  for_fold rs (fun r x => call_rotor debug r "encrypt" (ret x)) x.

(** [decipher] *)
Definition decipher (debug : bool) (self : t) (y : Z) : M heap Z :=
  let! n := self_int self "num_cipher_rotors" in
  for_fold (py_range 0 n) (fun i y =>
    let! rs := self_rotors self "cipher_rotors" in
    let! k := self_int self "num_rotors" in
    let! r := lift (py_getitem rs (k - 1 - i)) in
    call_rotor debug r "decrypt" (ret y)) y.

(** [control] *)
Definition control (debug : bool) (self : t) (x : Z) : M heap Z :=
  let! rs := self_rotors self "control_rotors" in
  for_fold rs (fun r x => call_rotor debug r "encrypt" (ret x)) x.

(** [control_back] *)
Definition control_back (debug : bool) (self : t) (x : Z) : M heap Z :=
  let! n := self_int self "num_control_rotors" in
  for_fold (py_range 0 n) (fun i x =>
    let! rs := self_rotors self "control_rotors" in
    let! k := self_int self "num_control_rotors" in
    let! r := lift (py_getitem rs (k - 1 - i)) in
    call_rotor debug r "decrypt" (ret x)) x.

(** [step_cipher_rotors] *)
Definition step_cipher_rotors (debug : bool) (self : t) : M heap unit :=
  let! n := self_int self "num_control_rotors" in
  let stepping := map (fun _ => false) (py_range 0 n) in
  let! cs := self_list self "control_inputs" in
  let! stepping :=
    for_fold cs (fun c stepping =>
      let! im := self_list self "index_map" in
      let! o := control debug self c in
      let! z := lift (py_getitem im o) in
      if negb (z =? -1) then lift (py_setitem stepping z true)
      else ret stepping) stepping in
  for_in (py_range 0 (len stepping)) (fun i =>
    let! s := lift (py_getitem stepping i) in
    (if s : bool then
       let! rs := self_rotors self "cipher_rotors" in
       let! r := lift (py_getitem rs i) in
       on_rotor r (step 1)
     else ret tt) >>
    ret Next).

(** [step_control_rotors] *)
Definition step_control_rotors (self : t) : M heap unit :=
  (let! rs := self_rotors self "control_rotors" in
   let! order := self_list self "control_rotor_stepping" in
   let! k := lift (py_getitem order 0) in
   let! r := lift (py_getitem rs k) in
   on_rotor r (step 1)) >>
  let! order := self_list self "control_stepping_order" in
  for_in (py_range 1 (len order)) (fun i =>
    let! rs := self_rotors self "control_rotors" in
    let! r := lift (py_getitem rs (i - 1)) in
    let! p := on_rotor r get_position in
    let! n := self_int self "control_alphabet_size" in
    let! c := lift (py_mod (p - 1) n) in
    let! sp := self_int self "control_step_position" in
    if c =? sp then
      let! rs := self_rotors self "control_rotors" in
      let! r := lift (py_getitem rs i) in
      on_rotor r (step 1) >>
      ret Next
    else ret Break).

(** [encrypt] *)
Definition encrypt (debug : bool) (self : t) (x : Z) : M heap Z :=
  let! y := encipher debug self x in
  step_cipher_rotors debug self >>
  step_control_rotors self >>
  ret y.

(** [decrypt] *)
Definition decrypt (debug : bool) (self : t) (y : Z) : M heap Z :=
  let! x := decipher debug self y in
  step_cipher_rotors debug self >>
  step_control_rotors self >>
  ret x.

End SIGABAMachine.

(** ** Rotor_Machine.py: class EnigmaMachine *)

Module EnigmaMachine.

Record t : Type := mk {
  rotors : list loc;
  num_rotors : Z;
  rotor_size : Z;
  reflector : option loc;
  steckerboard : loc;
  stepping_positions : list Z
}.

(** [set_rotors] *)
Definition set_rotors (rs : list loc) (self : t) : M heap t :=
  let! r0 := lift (py_getitem rs 0) in
  let! n := on_rotor r0 get_size in
  ret (mk rs (len rs) n (reflector self) (steckerboard self)
          (stepping_positions self)).

(** [set_reflector] *)
Definition set_reflector (reflector : option loc) (self : t) : M heap t :=
  ret (mk (rotors self) (num_rotors self) (rotor_size self) reflector
          (steckerboard self) (stepping_positions self)).

(** [set_steckerboard]: with no steckerboard given the method calls the
    name [rotor], which [import rotor] binds to the module. *)
Definition set_steckerboard (steckerboard : option loc) (self : t) : M heap t :=
  match steckerboard with
  | None => raise (TypeError "'module' object is not callable")
  | Some s =>
      ret (mk (rotors self) (num_rotors self) (rotor_size self)
              (reflector self) s (stepping_positions self))
  end.

(** [set_stepping_positions]: the default is a notch of 1 for every
    rotor. *)
Definition set_stepping_positions (stepping_positions : option (list Z))
  (self : t) : M heap t :=
  let stepping_positions :=
    match stepping_positions with
    | None => map (fun _ => 1) (py_range 0 (num_rotors self))
    | Some sp => sp
    end in
  ret (mk (rotors self) (num_rotors self) (rotor_size self)
          (reflector self) (steckerboard self) stepping_positions).

Definition blank : t := mk [] 0 0 None 0%nat [].

(** [EnigmaMachine(rotors, stepping_positions, reflector, steckerboard)] *)
Definition new (rs : list loc) (stepping_positions : option (list Z))
  (reflector steckerboard : option loc) : M heap t :=
  let! self := set_rotors rs blank in
  let! self := set_reflector reflector self in
  let! self := set_steckerboard steckerboard self in
  set_stepping_positions stepping_positions self.

(** The body of the loop of [step_rotors], at index [i]. *)
Definition step_rotors_body (self : t) (i : Z) : M heap flow :=
  let! r := lift (py_getitem (rotors self) (i - 1)) in
  let! p := on_rotor r get_position in
  let! c := lift (py_mod (p + 1) (rotor_size self)) in
  let! notch := lift (py_getitem (stepping_positions self) (i - 1)) in
  if c =? notch then
    let! r' := lift (py_getitem (rotors self) i) in
    on_rotor r' (step (-1)) >>
    ret Next
  else ret Break.

(** [step_rotors] *)
Definition step_rotors (self : t) : M heap unit :=
  (let! r0 := lift (py_getitem (rotors self) 0) in on_rotor r0 (step (-1))) >>
  for_in (py_range 1 (rotor_size self)) (step_rotors_body self).

(** [encrypt] *)
Definition encrypt (debug : bool) (self : t) (x : Z) : M heap Z :=
  let! y := call_rotor debug (steckerboard self) "encrypt" (ret x) in
  let! y := for_fold (rotors self)
              (fun r y => call_rotor debug r "encrypt" (ret y)) y in
  let! y :=
    match reflector self with
    | Some refl =>
        let! y := call_rotor debug refl "encrypt" (ret y) in
        let! y := for_fold (py_range_down (num_rotors self - 1) (-1))
                    (fun i y =>
                       let! r := lift (py_getitem (rotors self) i) in
                       call_rotor debug r "decrypt" (ret y)) y in
        call_rotor debug (steckerboard self) "decrypt" (ret y)
    | None => ret y
    end in
  step_rotors self >>
  ret y.

(** [decrypt]: without a reflector the steckerboard is reached through
    the bare name [steckerboard]. *)
Definition decrypt (debug : bool) (self : t) (y : Z) : M heap Z :=
  match reflector self with
  | Some _ => encrypt debug self y
  | None =>
      let! y := for_fold (py_range_down (num_rotors self - 1) (-1))
                  (fun i y =>
                     let! r := lift (py_getitem (rotors self) i) in
                     call_rotor debug r "decrypt" (ret y)) y in
      let! s := load_global global_rotors "steckerboard" in
      let! x := call_rotor debug s "decrypt" (ret y) in
      step_rotors self >>
      ret x
  end.

End EnigmaMachine.

(** ** Predicates of the statements *)

(** A well-formed rotor: its wiring is a permutation of [0..N-1], [N > 0],
    and its reverse table is the one [set_wiring] derives from the wiring;
    the position and the orientation flag are unconstrained. *)
Record rotor_ok (r : rotor) : Prop := mk_rotor_ok {
  ok_size : size r = len (wiring r);
  ok_nonempty : 0 < size r;
  ok_perm : wiring r ≡ₚ py_range 0 (size r);
  ok_rev_len : len (reverse_wiring r) = size r;
  ok_rev : ∀ i j, py_getitem (wiring r) i = Ok j ->
                  0 <= i < size r ->
                  py_getitem (reverse_wiring r) j = Ok i
}.

(** A computation that leaves the state as it was, whether it returns or
    raises. *)
Definition frame {S A} (m : M S A) : Prop := ∀ s, snd (m s) = s.

(** A computation that keeps a property of the state, whether it returns
    or raises. *)
Definition keeps {S A} (P : S -> Prop) (m : M S A) : Prop :=
  ∀ s, P s -> P (snd (m s)).

(** [n] calls of a method in a row. *)
Fixpoint ticks {S} (n : nat) (tick : M S unit) : M S unit :=
  match n with
  | O => ret tt
  | S n' => tick >> ticks n' tick
  end.

(** The position of the rotor in slot [i] of a rotor list. *)
Definition slot_position (h : heap) (ls : list loc) (i : nat) : option Z :=
  match ls !! i with
  | Some l => position <$> h !! l
  | None => None
  end.

(** A machine over a store: its slots hold distinct rotor objects of the
    machine's size [N > 0] with positions in [0,N), there is a notch for
    every rotor, and there are at least one and at most [N] rotors. *)
Record enigma_ok (m : EnigmaMachine.t) (h : heap) : Prop := mk_enigma_ok {
  eo_distinct : NoDup (EnigmaMachine.rotors m);
  eo_some : (0 < length (EnigmaMachine.rotors m))%nat;
  eo_count : len (EnigmaMachine.rotors m) <= EnigmaMachine.rotor_size m;
  eo_notches : length (EnigmaMachine.stepping_positions m)
               = length (EnigmaMachine.rotors m);
  eo_rotors : ∀ l, l ∈ EnigmaMachine.rotors m ->
              ∃ r, h !! l = Some r ∧ size r = EnigmaMachine.rotor_size m ∧
                   0 <= position r < size r
}.

(** ** Sample inputs *)

(** The rotor with the identity wiring on [n] symbols, as [set_wiring]
    stores it. *)
Definition identity_rotor (n : Z) : rotor :=
  mk_rotor n (py_range 0 n) (py_range 0 n) 0 false.

Definition identity26 : rotor := identity_rotor 26.

(** A rotor on four symbols with a cyclic wiring, at position 2. *)
Definition sample_rotor : rotor := mk_rotor 4 [1; 2; 3; 0] [3; 0; 1; 2] 2 false.

(** An Enigma with one rotor, a reflector and a steckerboard on four
    symbols. *)
Definition enigma_heap : heap :=
  [ mk_rotor 4 [1; 2; 3; 0] [3; 0; 1; 2] 0 false;
    mk_rotor 4 [1; 0; 3; 2] [1; 0; 3; 2] 0 false;
    mk_rotor 4 [0; 1; 2; 3] [0; 1; 2; 3] 0 false ].

Definition enigma_machine : EnigmaMachine.t :=
  EnigmaMachine.mk [0%nat] 1 4 (Some 1%nat) 2%nat [1].

(** A SIGABA with three cipher rotors and four control rotors on ten
    symbols, identity wirings, the default control inputs, and an index map
    that sends the control outputs 5 and 6 to cipher rotor 0, 7 to cipher
    rotor 1 and 8 to the sentinel. *)
Definition sigaba_heap : heap := replicate 7 (identity_rotor 10).

(** The same store after some use: the seven rotors stand at the positions
    1 to 7, and an eighth rotor, which belongs to no machine, at 8. *)
Definition sigaba_heap_used : heap :=
  map (fun p => put_position p (identity_rotor 10)) [1; 2; 3; 4; 5; 6; 7; 8].

Definition sigaba_index_map : list Z := [-1; -1; -1; -1; -1; 0; 0; 1; -1; -1].

Definition sigaba_machine : SIGABAMachine.t :=
  SIGABAMachine.mk [0; 1; 2]%nat 3 10 [3; 4; 5; 6]%nat 4 10
    sigaba_index_map [5; 6; 7; 8] 0 [2; 3; 1].

(** Three rotors and a steckerboard slot on four symbols, with the notch
    list that [set_stepping_positions] installs by default, at chosen
    rotor positions. *)
Definition enigma3 : EnigmaMachine.t :=
  EnigmaMachine.mk [0; 1; 2]%nat 3 4 None 3%nat [1; 1; 1].

Definition heap3 (p0 p1 p2 : Z) : heap :=
  [ put_position p0 (identity_rotor 4); put_position p1 (identity_rotor 4);
    put_position p2 (identity_rotor 4); identity_rotor 4 ].

(** A bank over the three rotors of [heap3]. *)
Definition bank3 : RotorBank.t := RotorBank.mk [0; 1; 2]%nat 3 4.

(** ** The specification's wordings *)

(** Scenario A as the specification words it: identity wiring on 26
    symbols; encode(5) = 5 at position 0 and, after set_position(1),
    encode(0) = 1 and decode(1) = 0. *)
Definition scenario_A_as_specified (debug : bool) : Prop :=
  encode debug 5 identity26 = (Ok 5, identity26) ∧
  ∃ r1, set_position 1 identity26 = (Ok tt, r1) ∧
        encode debug 0 r1 = (Ok 1, r1) ∧
        decode debug 1 r1 = (Ok 0, r1).

(** The range check as the specification words it: encode and decode fail
    for every input outside [0,N), in whatever mode the interpreter runs. *)
Definition range_check_as_specified (debug : bool) (r : rotor) : Prop :=
  ∀ x, ¬ (0 <= x < size r) ->
    (∃ e r', encode debug x r = (Raise e, r')) ∧
    (∃ e r', decode debug x r = (Raise e, r')).

(** The specification's list of the rotor methods that write a position is
    set_position and step: as it words it, a call of any other method
    leaves the position where it was. *)
Definition keeps_position_as_specified {A} (m : M rotor A) (r : rotor) : Prop :=
  position (snd (m r)) = position r.

(** The stepping rule as the specification words it, for the first pair of
    rotors: rotor 1 moves in a tick exactly when rotor 0's position after
    its step equals rotor 0's notch. *)
Definition first_carry_as_specified (m : EnigmaMachine.t) (h h' : heap) : Prop :=
  slot_position h' (EnigmaMachine.rotors m) 1
    ≠ slot_position h (EnigmaMachine.rotors m) 1
  <-> slot_position h' (EnigmaMachine.rotors m) 0
      = EnigmaMachine.stepping_positions m !! 0%nat.

(** Scenario B as the specification words it, from a given store: after
    [N] ticks rotor 0 is back, rotor 1 is one step further and rotor 2 has
    not moved. *)
Definition scenario_B_as_specified (m : EnigmaMachine.t) (h : heap) : Prop :=
  ∀ h', ticks (Z.to_nat (EnigmaMachine.rotor_size m))
          (EnigmaMachine.step_rotors m) h = (Ok tt, h') ->
        slot_position h' (EnigmaMachine.rotors m) 0
          = slot_position h (EnigmaMachine.rotors m) 0 ∧
        slot_position h' (EnigmaMachine.rotors m) 1
          = (λ p, (p - 1) mod EnigmaMachine.rotor_size m)
              <$> slot_position h (EnigmaMachine.rotors m) 1 ∧
        slot_position h' (EnigmaMachine.rotors m) 2
          = slot_position h (EnigmaMachine.rotors m) 2.

(** ** Basic facts about the primitives *)

Lemma py_mod_pos (a n : Z) : 0 < n -> py_mod a n = Ok (a mod n).
Proof.
  intros Hn. unfold py_mod.
  destruct (Z.eqb_spec n 0) as [->|_]; [lia | reflexivity].
Qed.

Lemma elem_of_py_range (a b x : Z) : x ∈ py_range a b <-> a <= x < b.
Proof.
  unfold py_range. rewrite list_elem_of_fmap. split.
  - intros (k & -> & Hk). apply elem_of_seq in Hk. lia.
  - intros Hx. exists (Z.to_nat (x - a)). split; [lia |].
    apply elem_of_seq. lia.
Qed.

Lemma length_py_range (a b : Z) : length (py_range a b) = Z.to_nat (b - a).
Proof. unfold py_range. by rewrite length_map, length_seq. Qed.

Lemma lookup_py_range (a b : Z) (k : nat) :
  (k < Z.to_nat (b - a))%nat -> py_range a b !! k = Some (a + Z.of_nat k).
Proof.
  intros Hk. unfold py_range. rewrite list_lookup_fmap.
  by rewrite lookup_seq_lt.
Qed.

Lemma py_index_in_range {A} (l : list A) (i : Z) :
  0 <= i < len l -> py_index l i = Ok (Z.to_nat i).
Proof.
  intros Hi. unfold py_index.
  destruct (Z.leb_spec 0 i); [| lia].
  destruct (Z.ltb_spec i (len l)); [reflexivity | lia].
Qed.

Lemma py_getitem_in_range {A} (l : list A) (i : Z) (a : A) :
  0 <= i < len l -> (py_getitem l i = Ok a <-> l !! Z.to_nat i = Some a).
Proof.
  intros Hi. unfold py_getitem. rewrite py_index_in_range by done.
  destruct (l !! Z.to_nat i) as [b|] eqn:E; split; intros H;
    by simplify_eq.
Qed.

Lemma py_getitem_total {A} (l : list A) (i : Z) :
  0 <= i < len l -> ∃ a, py_getitem l i = Ok a.
Proof.
  intros Hi. destruct (lookup_lt_is_Some_2 l (Z.to_nat i)) as [a Ha].
  { unfold len in Hi. lia. }
  exists a. by apply py_getitem_in_range.
Qed.

Lemma py_getitem_elem_of {A} (l : list A) (i : Z) (a : A) :
  py_getitem l i = Ok a -> a ∈ l.
Proof.
  unfold py_getitem. destruct (py_index l i) as [k|]; [| done].
  destruct (l !! k) as [b|] eqn:E; [| done].
  intros [= <-]. by eapply list_elem_of_lookup_2.
Qed.

Lemma elem_of_py_getitem {A} (l : list A) (a : A) :
  a ∈ l -> ∃ i, 0 <= i < len l ∧ py_getitem l i = Ok a.
Proof.
  intros Ha. apply list_elem_of_lookup in Ha as [k Hk].
  pose proof (lookup_lt_Some _ _ _ Hk) as Hlt.
  exists (Z.of_nat k). split; [unfold len; lia |].
  apply py_getitem_in_range; [unfold len; lia |].
  by rewrite Nat2Z.id.
Qed.

(** ** Running [encode] and [decode] on a well-formed rotor *)

Section WellFormed.
Variable r : rotor.
Hypothesis Hok : rotor_ok r.

Lemma wiring_get (k : Z) :
  0 <= k < size r ->
  ∃ y, py_getitem (wiring r) k = Ok y ∧ 0 <= y < size r ∧
       py_getitem (reverse_wiring r) y = Ok k.
Proof.
  intros Hk. destruct (py_getitem_total (wiring r) k) as [y Hy].
  { by rewrite <- (ok_size r Hok). }
  exists y. split; [done |]. split.
  - apply py_getitem_elem_of in Hy. rewrite (ok_perm r Hok) in Hy.
    by apply elem_of_py_range in Hy.
  - by apply (ok_rev r Hok).
Qed.

Lemma reverse_wiring_get (k : Z) :
  0 <= k < size r ->
  ∃ x, py_getitem (reverse_wiring r) k = Ok x ∧ 0 <= x < size r ∧
       py_getitem (wiring r) x = Ok k.
Proof.
  intros Hk.
  assert (k ∈ wiring r) as Hin.
  { rewrite (ok_perm r Hok). by apply elem_of_py_range. }
  apply elem_of_py_getitem in Hin as (i & Hi & Hget).
  rewrite <- (ok_size r Hok) in Hi.
  exists i. split; [| done]. by apply (ok_rev r Hok).
Qed.

Lemma encode_run (debug : bool) (x y : Z) :
  0 <= x < size r ->
  py_getitem (wiring r) ((x - position r) mod size r) = Ok y ->
  encode debug x r = (Ok ((y + position r) mod size r), r).
Proof.
  intros Hx Hy. pose proof (ok_nonempty r Hok) as Hn.
  assert ((0 <=? x) && (x <? size r) = true) as Hb.
  { apply andb_true_intro. split; [apply Z.leb_le | apply Z.ltb_lt]; lia. }
  destruct debug; unfold encode, assert_, bind, gets, ret, lift; cbn;
    rewrite ?Hb; cbn; rewrite py_mod_pos, Hy by done; cbn;
    by rewrite py_mod_pos.
Qed.

Lemma decode_run (debug : bool) (y x : Z) :
  0 <= y < size r ->
  py_getitem (reverse_wiring r) ((y - position r) mod size r) = Ok x ->
  decode debug y r = (Ok ((x + position r) mod size r), r).
Proof.
  intros Hx Hy. pose proof (ok_nonempty r Hok) as Hn.
  assert ((0 <=? y) && (y <? size r) = true) as Hb.
  { apply andb_true_intro. split; [apply Z.leb_le | apply Z.ltb_lt]; lia. }
  destruct debug; unfold decode, assert_, bind, gets, ret, lift; cbn;
    rewrite ?Hb; cbn; rewrite py_mod_pos, Hy by done; cbn;
    by rewrite py_mod_pos.
Qed.

Lemma unshift_shift (v : Z) :
  0 <= v < size r -> ((v + position r) mod size r - position r) mod size r = v.
Proof.
  intros Hv. rewrite Zminus_mod_idemp_l.
  replace (v + position r - position r) with v by lia.
  by apply Z.mod_small.
Qed.

Lemma shift_unshift (v : Z) :
  0 <= v < size r -> ((v - position r) mod size r + position r) mod size r = v.
Proof.
  intros Hv. rewrite Zplus_mod_idemp_l.
  replace (v - position r + position r) with v by lia.
  by apply Z.mod_small.
Qed.

Lemma decode_encode (debug : bool) (x : Z) :
  0 <= x < size r ->
  ∃ c, 0 <= c < size r ∧
       encode debug x r = (Ok c, r) ∧ decode debug c r = (Ok x, r).
Proof.
  intros Hx. pose proof (ok_nonempty r Hok) as Hn.
  destruct (wiring_get ((x - position r) mod size r)) as (y & Hy & Hyr & Hrev).
  { apply Z.mod_pos_bound; lia. }
  exists ((y + position r) mod size r). split; [apply Z.mod_pos_bound; lia |].
  split; [by apply encode_run |].
  rewrite (decode_run debug _ ((x - position r) mod size r)).
  - by rewrite shift_unshift.
  - apply Z.mod_pos_bound; lia.
  - by rewrite unshift_shift.
Qed.

Lemma encode_decode (debug : bool) (y : Z) :
  0 <= y < size r ->
  ∃ d, 0 <= d < size r ∧
       decode debug y r = (Ok d, r) ∧ encode debug d r = (Ok y, r).
Proof.
  intros Hy. pose proof (ok_nonempty r Hok) as Hn.
  destruct (reverse_wiring_get ((y - position r) mod size r))
    as (x & Hx & Hxr & Hfwd).
  { apply Z.mod_pos_bound; lia. }
  exists ((x + position r) mod size r). split; [apply Z.mod_pos_bound; lia |].
  split; [by apply decode_run |].
  rewrite (encode_run debug _ ((y - position r) mod size r)).
  - by rewrite shift_unshift.
  - apply Z.mod_pos_bound; lia.
  - by rewrite unshift_shift.
Qed.
End WellFormed.

(** ** Rotor: substitution and its inverse *)

Lemma py_range_cons (a b : Z) : a < b -> py_range a b = a :: py_range (a + 1) b.
Proof.
  intros Hab. unfold py_range.
  replace (Z.to_nat (b - a)) with (S (Z.to_nat (b - (a + 1)))) by lia.
  cbn [seq map]. f_equal; [lia |].
  rewrite <- seq_shift, map_map. apply map_ext. intros k. lia.
Qed.

Lemma py_range_nil (a b : Z) : b <= a -> py_range a b = [].
Proof.
  intros Hab. unfold py_range.
  by replace (Z.to_nat (b - a)) with 0%nat by lia.
Qed.

Lemma out_of_range_test (x n : Z) :
  ¬ (0 <= x < n) -> (0 <=? x) && (x <? n) = false.
Proof.
  intros Hx. apply andb_false_iff.
  destruct (Z.leb_spec 0 x); [right | by left].
  apply Z.ltb_ge. lia.
Qed.

(** C2: for a rotor whose wiring is a permutation of 0..N-1 (any N > 0,
    reverse table as derived from it) at any position, and every x and y in
    [0,N): decode(encode(x)) = x and encode(decode(y)) = y, the rotor being
    left as it was by both calls. *)
Theorem rotor_decode_encode_round_trip (debug : bool) (r : rotor) (x y : Z) :
  rotor_ok r -> 0 <= x < size r -> 0 <= y < size r ->
  (∃ c, encode debug x r = (Ok c, r) ∧ decode debug c r = (Ok x, r)) ∧
  (∃ d, decode debug y r = (Ok d, r) ∧ encode debug d r = (Ok y, r)).
Proof.
  intros Hok Hx Hy. split.
  - destruct (decode_encode r Hok debug x Hx) as (c & _ & He & Hd). eauto.
  - destruct (encode_decode r Hok debug y Hy) as (d & _ & Hd & He). eauto.
Qed.

(** C4 (amended): with assert statements active (the interpreter's
    default), encode and decode of a well-formed rotor raise the range
    assertion for every integer outside [0,N) and leave the rotor untouched;
    for x in [0,N), in either mode, encode returns
    (wiring[(x - position) mod N] + position) mod N and decode returns
    (reverse_wiring[(x - position) mod N] + position) mod N; and with the
    assertions compiled out (python -O) no input is rejected: the same two
    formulas are applied to every integer, so an input outside [0,N)
    wraps. *)
Theorem rotor_encode_decode_range_and_formula (r : rotor) (x : Z) :
  rotor_ok r ->
  (¬ (0 <= x < size r) ->
     encode true x r
       = (Raise (AssertionError "Rotor input outside valid range"), r) ∧
     decode true x r
       = (Raise (AssertionError "Rotor input outside valid range"), r)) ∧
  (0 <= x < size r -> ∀ debug,
     (∃ y, py_getitem (wiring r) ((x - position r) mod size r) = Ok y ∧
           encode debug x r = (Ok ((y + position r) mod size r), r)) ∧
     (∃ y, py_getitem (reverse_wiring r) ((x - position r) mod size r) = Ok y ∧
           decode debug x r = (Ok ((y + position r) mod size r), r))) ∧
  ((∃ y, py_getitem (wiring r) ((x - position r) mod size r) = Ok y ∧
         encode false x r = (Ok ((y + position r) mod size r), r)) ∧
   (∃ y, py_getitem (reverse_wiring r) ((x - position r) mod size r) = Ok y ∧
         decode false x r = (Ok ((y + position r) mod size r), r))).
Proof.
  intros Hok. pose proof (ok_nonempty r Hok) as Hn.
  assert (0 <= (x - position r) mod size r < size r) as Hk
    by (apply Z.mod_pos_bound; lia).
  split; [| split].
  - intros Hx. apply out_of_range_test in Hx.
    unfold encode, decode, assert_, bind, gets, ret, raise. cbn.
    by rewrite Hx.
  - intros Hx debug. split.
    + destruct (wiring_get r Hok _ Hk) as (y & Hy & _).
      exists y. split; [done |]. by apply encode_run.
    + destruct (reverse_wiring_get r Hok _ Hk) as (y & Hy & _).
      exists y. split; [done |]. by apply decode_run.
  - split.
    + destruct (wiring_get r Hok _ Hk) as (y & Hy & _).
      exists y. split; [done |].
      unfold encode, assert_, bind, gets, ret, lift. cbn.
      rewrite py_mod_pos, Hy by done. cbn. by rewrite py_mod_pos.
    + destruct (reverse_wiring_get r Hok _ Hk) as (y & Hy & _).
      exists y. split; [done |].
      unfold decode, assert_, bind, gets, ret, lift. cbn.
      rewrite py_mod_pos, Hy by done. cbn. by rewrite py_mod_pos.
Qed.

(** With the assertions compiled out (python -O) the range check is gone
    and an out-of-range input wraps, as the header of rotor.py announces. *)
Example encode_unchecked_wraps :
  encode false (-1) identity26 = (Ok 25, identity26) ∧
  decode false 30 identity26 = (Ok 4, identity26).
Proof. split; by vm_compute. Qed.

(** C9, as stated, fails: at position 1 the identity wiring sends 0 to
    wiring[(0 - 1) mod 26] + 1 = 25 + 1 = 0 (mod 26), not to 1. *)
Lemma identity_rotor_scenario_as_specified_fails :
  ¬ scenario_A_as_specified true.
Proof.
  intros (_ & r1 & Hset & Henc & _).
  vm_compute in Hset. injection Hset as <-.
  vm_compute in Henc. discriminate Henc.
Qed.

(** C9 (amended): the 26-symbol rotor with the identity wiring, built as
    set_wiring builds it: at position 0, encode(5) is 5; after
    set_position(1) the position is 1, encode(0) is 0 and decode(1) is 1. *)
Theorem identity_rotor_scenario (debug : bool) :
  set_wiring false (py_range 0 26) blank_rotor = (Ok tt, identity26) ∧
  encode debug 5 identity26 = (Ok 5, identity26) ∧
  ∃ r1, set_position 1 identity26 = (Ok tt, r1) ∧
        position r1 = 1 ∧
        encode debug 0 r1 = (Ok 0, r1) ∧
        decode debug 1 r1 = (Ok 1, r1).
Proof.
  split; [by vm_compute |].
  split; [destruct debug; by vm_compute |].
  exists (put_position 1 identity26).
  repeat split; destruct debug; by vm_compute.
Qed.

(** With the identity wiring the substitution is the identity at every
    position: the two shifts cancel. *)
Lemma identity_wiring_fixes_every_symbol (debug : bool) (r : rotor) (x : Z) :
  rotor_ok r -> wiring r = py_range 0 (size r) -> 0 <= x < size r ->
  encode debug x r = (Ok x, r).
Proof.
  intros Hok Hw Hx. pose proof (ok_nonempty r Hok) as Hn.
  assert (0 <= (x - position r) mod size r < size r) as Hk
    by (apply Z.mod_pos_bound; lia).
  rewrite (encode_run r Hok debug x ((x - position r) mod size r) Hx).
  - by rewrite shift_unshift.
  - apply py_getitem_in_range; [by rewrite <- (ok_size r Hok) |].
    rewrite Hw, lookup_py_range by lia. f_equal. lia.
Qed.

(** ** Construction *)

Lemma NoDup_py_range (a b : Z) : NoDup (py_range a b).
Proof.
  unfold py_range. apply NoDup_fmap_2; [| apply NoDup_seq].
  intros k1 k2 Hk. lia.
Qed.

(** With the assertions compiled out, the loop of [set_wiring] fills the
    reverse table: after the indices below [k], every one of them is found
    at the slot its wiring value names. *)
Lemma set_wiring_loop (w : list Z) (n : nat) :
  w ≡ₚ py_range 0 (len w) ->
  ∀ (k : nat) (rw : list Z),
    (k + n = length w)%nat ->
    length rw = length w ->
    (∀ i j, (i < k)%nat -> w !! i = Some j -> rw !! Z.to_nat j = Some (Z.of_nat i)) ->
    ∃ rw',
      for_in (py_range (Z.of_nat k) (len w)) (set_wiring_body false w)
        (mk_rotor (len w) w rw 0 false)
      = (Ok tt, mk_rotor (len w) w rw' 0 false) ∧
      length rw' = length w ∧
      (∀ i j, w !! i = Some j -> rw' !! Z.to_nat j = Some (Z.of_nat i)).
Proof.
  intros Hperm. induction n as [|n IH]; intros k rw Hk Hlen Hinv.
  - exists rw. rewrite py_range_nil by (unfold len; lia).
    split; [done |]. split; [done |].
    intros i j Hi. apply Hinv; [| done]. apply lookup_lt_Some in Hi. lia.
  - rewrite py_range_cons by (unfold len; lia).
    destruct (lookup_lt_is_Some_2 w k) as [j Hj]; [lia |].
    assert (0 <= j < len w) as Hjr.
    { apply elem_of_py_range. rewrite <- Hperm.
      by eapply list_elem_of_lookup_2. }
    assert (py_getitem w (Z.of_nat k) = Ok j) as Hget.
    { apply py_getitem_in_range; [unfold len; lia |]. by rewrite Nat2Z.id. }
    assert (py_index rw j = Ok (Z.to_nat j)) as Hidx.
    { apply py_index_in_range. unfold len in *. lia. }
    destruct (IH (S k) (<[Z.to_nat j := Z.of_nat k]> rw)) as (rw' & Hrun & Hlen' & Hinv').
    + lia.
    + by rewrite length_insert.
    + intros i j' Hi Hij'.
      destruct (decide (i = k)) as [-> | Hne].
      * assert (j' = j) as -> by congruence.
        apply list_lookup_insert_eq. unfold len in Hjr. lia.
      * rewrite list_lookup_insert_ne.
        { apply Hinv; [lia | done]. }
        intros Heq. apply Hne.
        assert (j' ∈ py_range 0 (len w)) as Hj'.
        { rewrite <- Hperm. by eapply list_elem_of_lookup_2. }
        apply elem_of_py_range in Hj'.
        assert (j' = j) as -> by lia.
        eapply NoDup_lookup; [| exact Hij' | exact Hj].
        rewrite Hperm. apply NoDup_py_range.
    + exists rw'. split; [| done].
      cbn [for_in]. unfold bind at 1.
      unfold set_wiring_body at 1.
      unfold assert_, bind, gets, ret, lift, modify, py_setitem. cbn.
      rewrite Hget. cbn. rewrite Hidx. cbn.
      replace (Z.of_nat k + 1) with (Z.of_nat (S k)) by lia.
      exact Hrun.
Qed.

(** A rotor as [set_wiring] builds it from a permutation of [0..N-1] when the
    assertions are compiled out: position 0, flag cleared, and a reverse
    table inverse to the wiring. *)
Lemma set_wiring_unchecked (w : list Z) (r0 : rotor) :
  w ≠ [] -> w ≡ₚ py_range 0 (len w) ->
  ∃ r, set_wiring false w r0 = (Ok tt, r) ∧ rotor_ok r ∧
       wiring r = w ∧ position r = 0 ∧ reversed r = false.
Proof.
  intros Hne Hperm.
  destruct (set_wiring_loop w (length w) Hperm 0%nat (py_range 0 (len w)))
    as (rw' & Hrun & Hlen & Hinv).
  - lia.
  - rewrite length_py_range. unfold len. lia.
  - intros i j Hi. lia.
  - exists (mk_rotor (len w) w rw' 0 false).
    split; [| split; [| done]].
    + unfold set_wiring, assert_, bind, gets, ret, modify. cbn. exact Hrun.
    + assert (0 < len w) as Hpos.
      { unfold len. destruct w; [done | cbn; lia]. }
      constructor; cbn; [done | done | done | unfold len; lia |].
      intros i j Hget Hi.
      apply py_getitem_in_range in Hget; [| done].
      assert (0 <= j < len w) as Hjr.
      { apply elem_of_py_range. rewrite <- Hperm.
        by eapply list_elem_of_lookup_2. }
      apply py_getitem_in_range; [unfold len in *; lia |].
      rewrite (Hinv _ _ Hget). f_equal. lia.
Qed.

(** [set_position] and [step] keep a rotor well formed and its position
    in [0,N). *)
Lemma set_position_run (r : rotor) (p : Z) :
  0 < size r -> set_position p r = (Ok tt, put_position (p mod size r) r).
Proof.
  intros Hn. unfold set_position, bind, gets, lift, modify. cbn.
  by rewrite py_mod_pos.
Qed.

Lemma step_run (r : rotor) (d : Z) :
  0 < size r -> step d r = (Ok tt, put_position ((position r + d) mod size r) r).
Proof.
  intros Hn. unfold step, bind, gets, lift, modify. cbn.
  by rewrite py_mod_pos.
Qed.

Lemma put_position_ok (r : rotor) (p : Z) : rotor_ok r -> rotor_ok (put_position p r).
Proof. intros [? ? ? ? ?]. by constructor. Qed.

(** With the assertions compiled out nothing is validated: a wiring with a
    repeated value is accepted. *)
Example unchecked_construction_accepts_duplicates :
  rotor_new false [0; 0] = Ok (mk_rotor 2 [0; 0] [1; 1] 0 false).
Proof. by vm_compute. Qed.

(** C8: with assert statements active, construction never succeeds, not
    even on a permutation of 0..N-1: the duplicate check subscripts the
    wiring list with the tuple (0, i) and raises TypeError at the first
    element that passes the range check. *)
Theorem rotor_construction_rejects_every_wiring :
  (∀ w, ∃ e, rotor_new true w = Raise e) ∧
  rotor_new true [0]
    = Raise (TypeError "list indices must be integers or slices, not tuple") ∧
  rotor_new true [2; 0; 1]
    = Raise (TypeError "list indices must be integers or slices, not tuple").
Proof.
  split; [| split; by vm_compute].
  intros [|j w].
  - eexists. by vm_compute.
  - unfold rotor_new, set_wiring.
    unfold bind at 1 2 3 4 5 6 7. unfold modify, assert_, bind, gets, ret.
    cbn [fst snd size put_size put_position put_reversed put_wiring
         put_reverse_wiring position reversed wiring reverse_wiring].
    assert (0 < len (j :: w)) as Hpos by (unfold len; cbn; lia).
    apply Z.ltb_lt in Hpos as Hpos'. rewrite Hpos'.
    rewrite py_range_cons by done. cbn [for_in].
    unfold bind at 1. unfold set_wiring_body.
    unfold assert_, bind, gets, ret, lift, raise, py_getitem_tuple.
    cbn [fst snd size put_size put_position put_reversed put_wiring
         put_reverse_wiring position reversed wiring reverse_wiring].
    rewrite (proj2 (py_getitem_in_range (j :: w) 0 j ltac:(lia)) eq_refl).
    destruct ((0 <=? j) && (j <? len (j :: w))); eexists; reflexivity.
Qed.

(** ** Computations that leave the state as it was *)

Section Frame.
Context {S : Type}.

Lemma frame_ret {A} (a : A) : frame (S := S) (ret a).
Proof. by intros s. Qed.

Lemma frame_raise {A} (e : exn) : frame (S := S) (A := A) (raise e).
Proof. by intros s. Qed.

Lemma frame_lift {A} (r : result A) : frame (S := S) (lift r).
Proof. by intros s. Qed.

Lemma frame_gets {A} (f : S -> A) : frame (gets f).
Proof. by intros s. Qed.

Lemma frame_bind {A B} (m : M S A) (k : A -> M S B) :
  frame m -> (∀ a, frame (k a)) -> frame (bind m k).
Proof.
  intros Hm Hk s. unfold bind. specialize (Hm s).
  destruct (m s) as [[a|e] s']; cbn in Hm; subst s'; [apply Hk | done].
Qed.

Lemma frame_assert (debug : bool) (c : M S bool) (msg : string) :
  frame c -> frame (assert_ debug c msg).
Proof.
  intros Hc. unfold assert_. destruct debug; [| apply frame_ret].
  apply frame_bind; [done |]. intros [|]; [apply frame_ret | apply frame_raise].
Qed.

Lemma frame_for_fold {B C} (xs : list B) (body : B -> C -> M S C) (acc : C) :
  (∀ x c, frame (body x c)) -> frame (for_fold xs body acc).
Proof.
  intros Hbody. revert acc.
  induction xs as [|x xs IH]; intros acc; cbn [for_fold].
  - apply frame_ret.
  - apply frame_bind; [apply Hbody | done].
Qed.

Lemma frame_for_in {B} (xs : list B) (body : B -> M S flow) :
  (∀ x, frame (body x)) -> frame (for_in xs body).
Proof.
  intros Hbody. induction xs as [|x xs IH]; cbn [for_in].
  - apply frame_ret.
  - apply frame_bind; [apply Hbody |]. intros [|]; [done | apply frame_ret].
Qed.

Lemma frame_getattr {A} (cls : string) (tbl : list (string * A)) (name : string) :
  frame (S := S) (getattr cls tbl name).
Proof. unfold getattr. destruct (assoc name tbl); [apply frame_ret | apply frame_raise]. Qed.

Lemma frame_load_global {A} (tbl : list (string * A)) (name : string) :
  frame (S := S) (load_global tbl name).
Proof.
  unfold load_global.
  destruct (assoc name tbl); [apply frame_ret | apply frame_raise].
Qed.
End Frame.

Create HintDb frame discriminated.
#[local] Hint Resolve frame_ret frame_raise frame_lift frame_gets frame_assert
  frame_getattr frame_load_global : frame.
#[local] Hint Extern 2 (frame (bind _ _)) => apply frame_bind; [| intros ?] : frame.
#[local] Hint Extern 2 (frame (for_fold _ _ _)) => apply frame_for_fold; intros ? ? : frame.
#[local] Hint Extern 2 (frame (for_in _ _)) => apply frame_for_in; intros ? : frame.
#[local] Hint Extern 3 (frame (if ?b then _ else _)) => destruct b : frame.
#[local] Hint Extern 3 (frame (match ?b with Some _ => _ | None => _ end)) =>
  destruct b : frame.

Ltac frame_auto := auto 30 with frame.

Lemma frame_encode (debug : bool) (x : Z) : frame (encode debug x).
Proof. unfold encode. frame_auto. Qed.

Lemma frame_decode (debug : bool) (y : Z) : frame (decode debug y).
Proof. unfold decode. frame_auto. Qed.

Lemma frame_reverse_rotor : frame reverse_rotor.
Proof. unfold reverse_rotor. frame_auto. Qed.

Lemma frame_on_rotor {A} (l : loc) (m : M rotor A) : frame m -> frame (on_rotor l m).
Proof.
  intros Hm h. unfold on_rotor.
  destruct (h !! l) as [r|] eqn:Hl; [| done].
  specialize (Hm r). destruct (m r) as [a r']. cbn in *. subst r'.
  by apply list_insert_id.
Qed.

Lemma frame_call_rotor (debug : bool) (l : loc) (name : string) (arg : M heap Z) :
  frame arg -> frame (call_rotor debug l name arg).
Proof.
  intros Harg. unfold call_rotor, rotor_symbol_methods. cbn [assoc].
  destruct (String.eqb name "encode").
  { apply frame_bind; [done |]. intros x. apply frame_on_rotor, frame_encode. }
  destruct (String.eqb name "decode").
  { apply frame_bind; [done |]. intros x. apply frame_on_rotor, frame_decode. }
  destruct (assoc name rotor_other_attributes); apply frame_raise.
Qed.

#[local] Hint Resolve frame_encode frame_decode frame_reverse_rotor
  frame_call_rotor : frame.
#[local] Hint Extern 2 (frame (on_rotor _ _)) => apply frame_on_rotor : frame.

(** ** Properties kept by a computation *)

Section Keeps.
Context {S : Type} (P : S -> Prop).

Lemma keeps_frame {A} (m : M S A) : frame m -> keeps P m.
Proof. intros Hm s Hs. by rewrite Hm. Qed.

Lemma keeps_modify (f : S -> S) : (∀ s, P s -> P (f s)) -> keeps P (modify f).
Proof. intros Hf s Hs. by apply Hf. Qed.

Lemma keeps_bind {A B} (m : M S A) (k : A -> M S B) :
  keeps P m -> (∀ a, keeps P (k a)) -> keeps P (bind m k).
Proof.
  intros Hm Hk s Hs. unfold bind. specialize (Hm s Hs).
  destruct (m s) as [[a|e] s']; cbn in Hm; [by apply Hk | done].
Qed.

Lemma keeps_for_in {B} (xs : list B) (body : B -> M S flow) :
  (∀ x, keeps P (body x)) -> keeps P (for_in xs body).
Proof.
  intros Hbody. induction xs as [|x xs IH]; cbn [for_in].
  - apply keeps_frame, frame_ret.
  - apply keeps_bind; [apply Hbody |].
    intros [|]; [done | apply keeps_frame, frame_ret].
Qed.
End Keeps.

(** Once [set_wiring] has written the position and the flag, nothing in the
    rest of its body writes them again. *)
Lemma set_wiring_body_keeps (P : rotor -> Prop) (debug : bool) (w : list Z)
  (i : Z) :
  (∀ rw r, P r -> P (put_reverse_wiring rw r)) ->
  keeps P (set_wiring_body debug w i).
Proof.
  intros Hrw. unfold set_wiring_body.
  apply keeps_bind; [apply keeps_frame; frame_auto |]. intros sw.
  apply keeps_bind; [apply keeps_frame; frame_auto |]. intros j.
  apply keeps_bind; [apply keeps_frame; frame_auto |]. intros _.
  apply keeps_bind; [apply keeps_frame; frame_auto |]. intros _.
  apply keeps_bind; [apply keeps_frame; frame_auto |]. intros rw.
  apply keeps_bind; [apply keeps_frame; frame_auto |]. intros rw'.
  apply keeps_bind; [apply keeps_modify; intros r; apply Hrw |]. intros _.
  apply keeps_frame, frame_ret.
Qed.

Lemma set_wiring_resets (debug : bool) (w : list Z) (r : rotor) :
  position (snd (set_wiring debug w r)) = 0 ∧
  reversed (snd (set_wiring debug w r)) = false.
Proof.
  set (P := λ r' : rotor, position r' = 0 ∧ reversed r' = false).
  change (P (snd (set_wiring debug w r))).
  assert (keeps P
            (modify (put_size (len w)) >>
             assert_ debug (let! n := gets size in ret (0 <? n))
               "Wiring sequence is empty" >>
             modify (put_wiring w) >>
             (let! n := gets size in modify (put_reverse_wiring (py_range 0 n))) >>
             let! n := gets size in
             for_in (py_range 0 n) (set_wiring_body debug w))) as Hrest.
  { apply keeps_bind; [by apply keeps_modify |]. intros _.
    apply keeps_bind; [apply keeps_frame; frame_auto |]. intros _.
    apply keeps_bind; [by apply keeps_modify |]. intros _.
    apply keeps_bind.
    { apply keeps_bind; [apply keeps_frame; frame_auto |]. intros n.
      by apply keeps_modify. }
    intros _.
    apply keeps_bind; [apply keeps_frame; frame_auto |]. intros n.
    apply keeps_for_in. intros i. by apply set_wiring_body_keeps. }
  exact (Hrest (put_reversed false (put_position 0 r)) (conj eq_refl eq_refl)).
Qed.

(** C10, as stated, fails in its last clause: [set_wiring], which is not
    among the position writers the clause lists, takes the sample rotor
    from position 2 to position 0, both when it returns (assertions
    compiled out) and when it raises (assertions active). *)
Lemma position_writers_as_specified_fails :
  position sample_rotor = 2 ∧
  set_wiring false [1; 2; 3; 0] sample_rotor
    = (Ok tt, mk_rotor 4 [1; 2; 3; 0] [3; 0; 1; 2] 0 false) ∧
  ¬ keeps_position_as_specified (set_wiring false [1; 2; 3; 0]) sample_rotor ∧
  set_wiring true [1; 2; 3; 0] sample_rotor
    = (Raise (TypeError "list indices must be integers or slices, not tuple"),
       mk_rotor 4 [1; 2; 3; 0] [0; 1; 2; 3] 0 false) ∧
  ¬ keeps_position_as_specified (set_wiring true [1; 2; 3; 0]) sample_rotor.
Proof.
  split; [reflexivity |]. split; [by vm_compute |].
  split; [intros H; vm_compute in H; discriminate H |].
  split; [by vm_compute |].
  intros H. vm_compute in H. discriminate H.
Qed.

(** C10 (amended): encode and decode, and the bank's encrypt, decrypt and
    their with-intermediates variants, leave every rotor (position, wiring,
    reverse wiring, flag) as it was, for every state and every input,
    whether they return or raise; so do the getters, reverse_rotor, the
    bank's set_rotors (its constructor), get_positions and
    get_rotor_position.  These are all the methods of the two classes but
    the position writers, which are set_position, step and set_wiring of a
    rotor and set_positions, reset_positions, set_rotor_position and
    step_rotor of a bank; set_wiring, and with it the construction of a
    rotor, always leaves the position at 0 and the flag cleared, whether it
    returns or raises. *)
Theorem pass_through_leaves_rotors_unchanged (debug : bool) :
  (∀ x, frame (encode debug x) ∧ frame (decode debug x)) ∧
  (frame get_size ∧ frame get_wiring ∧ frame get_reverse_wiring ∧
   frame get_position ∧ frame get_is_reversed ∧ frame reverse_rotor) ∧
  (∀ (b : RotorBank.t) (x : Z),
     frame (RotorBank.encrypt debug b x) ∧
     frame (RotorBank.decrypt debug b x) ∧
     frame (RotorBank.encrypt_with_intermediates debug b x) ∧
     frame (RotorBank.decrypt_with_intermediates debug b x)) ∧
  (∀ (b : RotorBank.t) (rs : list loc) (i : Z),
     frame (RotorBank.set_rotors debug rs b) ∧
     frame (RotorBank.get_positions b) ∧
     frame (RotorBank.get_rotor_position b i)) ∧
  (∀ (w : list Z) (r : rotor),
     position (snd (set_wiring debug w r)) = 0 ∧
     reversed (snd (set_wiring debug w r)) = false).
Proof.
  split; [intros x; split; frame_auto |].
  split; [unfold get_size, get_wiring, get_reverse_wiring, get_position,
            get_is_reversed; repeat split; frame_auto |].
  split; [| split].
  - intros b x.
    unfold RotorBank.encrypt, RotorBank.decrypt,
      RotorBank.encrypt_with_intermediates,
      RotorBank.decrypt_with_intermediates.
    repeat split; frame_auto.
  - intros b rs i.
    unfold RotorBank.set_rotors, RotorBank.get_positions,
      RotorBank.get_rotor_position, get_size, get_position.
    repeat split; frame_auto.
  - intros w r. apply set_wiring_resets.
Qed.

(** ** Machines: the substitution passes *)

Example enigma_inputs_built :
  rotor_new false [1; 2; 3; 0] = Ok (mk_rotor 4 [1; 2; 3; 0] [3; 0; 1; 2] 0 false) ∧
  rotor_new false [1; 0; 3; 2] = Ok (mk_rotor 4 [1; 0; 3; 2] [1; 0; 3; 2] 0 false) ∧
  rotor_new false [0; 1; 2; 3] = Ok (mk_rotor 4 [0; 1; 2; 3] [0; 1; 2; 3] 0 false) ∧
  EnigmaMachine.new [0%nat] None (Some 1%nat) (Some 2%nat) enigma_heap
    = (Ok enigma_machine, enigma_heap).
Proof. repeat split; by vm_compute. Qed.

Example sigaba_inputs_built :
  rotor_new false (py_range 0 10) = Ok (identity_rotor 10) ∧
  SIGABAMachine.new false [0; 1; 2]%nat [3; 4; 5; 6]%nat sigaba_index_map
    [5; 6; 7; 8] 0 [2; 3; 1] sigaba_heap
    = (Ok sigaba_machine, sigaba_heap).
Proof. repeat split; by vm_compute. Qed.

(** Class rotor defines encode and decode; a call of [encrypt] or [decrypt]
    on a rotor fails at the attribute lookup, before the argument is
    evaluated and whatever the store holds. *)
Lemma call_rotor_encrypt (debug : bool) (l : loc) (arg : M heap Z) (h : heap) :
  call_rotor debug l "encrypt" arg h = (Raise (AttributeError "rotor" "encrypt"), h).
Proof. reflexivity. Qed.

Lemma call_rotor_decrypt (debug : bool) (l : loc) (arg : M heap Z) (h : heap) :
  call_rotor debug l "decrypt" arg h = (Raise (AttributeError "rotor" "decrypt"), h).
Proof. reflexivity. Qed.

(** C1: EnigmaMachine.encrypt raises AttributeError at its first statement,
    [self.steckerboard.encrypt(x)], for every machine, input and store, and
    so does decrypt when a reflector is configured; no ciphertext is
    produced and no rotor steps. *)
Theorem enigma_encrypt_raises :
  (∀ debug m x h,
     EnigmaMachine.encrypt debug m x h
     = (Raise (AttributeError "rotor" "encrypt"), h)) ∧
  (∀ debug rs n sz refl s sp y h,
     EnigmaMachine.decrypt debug (EnigmaMachine.mk rs n sz (Some refl) s sp) y h
     = (Raise (AttributeError "rotor" "encrypt"), h)) ∧
  EnigmaMachine.encrypt false enigma_machine 0 enigma_heap
  = (Raise (AttributeError "rotor" "encrypt"), enigma_heap).
Proof. repeat split. Qed.

(** C3: SIGABAMachine.encrypt raises NameError in encipher, which iterates
    over the bare name [cipher_rotors], for every machine; decrypt of the
    sample machine raises AttributeError in decipher, which reads
    [self.num_rotors].  Neither returns a symbol nor steps a rotor. *)
Theorem sigaba_encrypt_decrypt_raise :
  (∀ debug m x h,
     SIGABAMachine.encrypt debug m x h = (Raise (NameError "cipher_rotors"), h)) ∧
  SIGABAMachine.encrypt false sigaba_machine 3 sigaba_heap
  = (Raise (NameError "cipher_rotors"), sigaba_heap) ∧
  SIGABAMachine.decrypt false sigaba_machine 3 sigaba_heap
  = (Raise (AttributeError "SIGABAMachine" "num_rotors"), sigaba_heap).
Proof. repeat split. Qed.

(** C6: SIGABAMachine.step_control_rotors raises AttributeError at its first
    statement, which reads [self.control_rotor_stepping], for every machine
    and store: no control rotor steps. *)
Theorem sigaba_step_control_rotors_raises :
  (∀ m h,
     SIGABAMachine.step_control_rotors m h
     = (Raise (AttributeError "SIGABAMachine" "control_rotor_stepping"), h)) ∧
  SIGABAMachine.step_control_rotors sigaba_machine sigaba_heap
  = (Raise (AttributeError "SIGABAMachine" "control_rotor_stepping"), sigaba_heap).
Proof. repeat split. Qed.

(** C7: SIGABAMachine.step_cipher_rotors raises AttributeError when it passes
    the first control input through the control bank, for every machine with
    a control input and a control rotor: no cipher rotor steps. *)
Theorem sigaba_step_cipher_rotors_raises :
  (∀ debug cr ncr crs r rs nk ks im c cs p o h,
     SIGABAMachine.step_cipher_rotors debug
       (SIGABAMachine.mk cr ncr crs (r :: rs) nk ks im (c :: cs) p o) h
     = (Raise (AttributeError "rotor" "encrypt"), h)) ∧
  SIGABAMachine.step_cipher_rotors false sigaba_machine sigaba_heap
  = (Raise (AttributeError "rotor" "encrypt"), sigaba_heap).
Proof. repeat split. Qed.

(** ** Enigma stepping *)

Lemma on_rotor_get_position (h : heap) (l : loc) (r : rotor) :
  h !! l = Some r -> on_rotor l get_position h = (Ok (position r), h).
Proof.
  intros Hl. unfold on_rotor, get_position, gets. rewrite Hl.
  by rewrite list_insert_id.
Qed.

Lemma on_rotor_step (h : heap) (l : loc) (r : rotor) (d : Z) :
  h !! l = Some r -> 0 < size r ->
  on_rotor l (step d) h
  = (Ok tt, <[l := put_position ((position r + d) mod size r) r]> h).
Proof.
  intros Hl Hn. unfold on_rotor. rewrite Hl. by rewrite step_run.
Qed.

Lemma py_getitem_nat {A} (l : list A) (i : nat) (a : A) :
  l !! i = Some a -> py_getitem l (Z.of_nat i) = Ok a.
Proof.
  intros Hi. apply py_getitem_in_range.
  - apply lookup_lt_Some in Hi. unfold len. lia.
  - by rewrite Nat2Z.id.
Qed.

Lemma py_getitem_past_end {A} (l : list A) (i : Z) :
  len l <= i -> py_getitem l i = Raise IndexError.
Proof.
  intros Hi. unfold py_getitem, py_index.
  destruct (Z.leb_spec 0 i); destruct (Z.ltb_spec i (len l)); cbn;
    try (unfold len in *; lia).
  destruct (Z.leb_spec (- len l) i); destruct (Z.ltb_spec i 0); cbn;
    try done; unfold len in *; lia.
Qed.

Lemma bind_run {S A B} (m : M S A) (k : A -> M S B) (s s' : S) (a : A) :
  m s = (Ok a, s') -> bind m k s = k a s'.
Proof. intros Hm. unfold bind. by rewrite Hm. Qed.

Lemma lift_run {S A} (r : result A) (s : S) : lift r s = (r, s).
Proof. reflexivity. Qed.

Lemma put_position_same (r : rotor) : put_position (position r) r = r.
Proof. by destruct r. Qed.

Lemma shift_unshift_mod (p n : Z) :
  0 <= p < n -> ((p - 1) mod n + 1) mod n = p.
Proof.
  intros Hp. rewrite Zplus_mod_idemp_l.
  replace (p - 1 + 1) with p by lia. by apply Z.mod_small.
Qed.

Section Cascade.
Variable m : EnigmaMachine.t.
Variable h0 : heap.
Hypothesis Hok : enigma_ok m h0.

Let ls := EnigmaMachine.rotors m.
Let sp := EnigmaMachine.stepping_positions m.
Let N := EnigmaMachine.rotor_size m.

(** The store after the rotors in the slots below [j] have stepped by -1. *)
Let after (j : nat) (h : heap) : Prop :=
length h = length h0 ∧
(∀ l, l ∉ ls -> h !! l = h0 !! l) ∧
(∀ i l r0, ls !! i = Some l -> h0 !! l = Some r0 ->
   h !! l = Some (if decide (i < j)%nat
                  then put_position ((position r0 - 1) mod N) r0 else r0)).

(** The carry test of [step_rotors] on slot [i], once that rotor has
  stepped. *)
Let test (i : nat) : bool :=
match ls !! i, sp !! i with
| Some l, Some notch =>
    match h0 !! l with
    | Some r0 => ((position r0 - 1) mod N + 1) mod N =? notch
    | None => false
    end
| _, _ => false
end.

Lemma slot_rotor (i : nat) :
(i < length ls)%nat ->
∃ l r0 notch, ls !! i = Some l ∧ sp !! i = Some notch ∧ h0 !! l = Some r0 ∧
              size r0 = N ∧ 0 <= position r0 < N.
Proof.
intros Hi. destruct (lookup_lt_is_Some_2 ls i Hi) as [l Hl].
destruct (lookup_lt_is_Some_2 sp i) as [notch Hn].
{ subst sp ls. by rewrite (eo_notches m h0 Hok). }
destruct (eo_rotors m h0 Hok l) as (r0 & Hr0 & Hsz & Hpos).
{ by eapply list_elem_of_lookup_2. }
exists l, r0, notch. repeat split; try done; subst N; lia.
Qed.

Lemma size_positive : 0 < N.
Proof.
pose proof (eo_some m h0 Hok). pose proof (eo_count m h0 Hok).
subst N. unfold len in *. lia.
Qed.

Lemma after_step (j : nat) (h : heap) (l : loc) (r0 : rotor) :
after j h -> ls !! j = Some l -> h0 !! l = Some r0 ->
after (S j) (<[l := put_position ((position r0 - 1) mod N) r0]> h).
Proof.
intros (Hlen & Hout & Hin) Hl Hr0. split; [| split].
- by rewrite length_insert.
- intros l' Hl'. rewrite list_lookup_insert_ne; [by apply Hout |].
  intros <-. apply Hl'. by eapply list_elem_of_lookup_2.
- intros i l' r0' Hl' Hr0'.
  destruct (decide (i = j)) as [-> | Hne].
  + assert (l' = l) as -> by congruence.
    assert (r0' = r0) as -> by congruence.
    rewrite list_lookup_insert_eq.
    * by rewrite decide_True by lia.
    * rewrite Hlen. by eapply lookup_lt_Some.
  + rewrite list_lookup_insert_ne.
    * rewrite (Hin i l' r0' Hl' Hr0').
      destruct (decide (i < j)%nat), (decide (i < S j)%nat); try done; lia.
    * intros <-. apply Hne.
      eapply NoDup_lookup; [apply (eo_distinct m h0 Hok) | exact Hl' | exact Hl].
Qed.

Lemma cascade_loop (n : nat) :
∀ (j : nat) (h : heap),
  (1 <= j <= length ls)%nat -> Z.of_nat j + Z.of_nat n = N ->
  after j h ->
  (len ls = N ∨ ∃ i, (j - 1 <= i < length ls)%nat ∧ test i = false) ->
  ∃ c h',
    for_in (py_range (Z.of_nat j) N) (EnigmaMachine.step_rotors_body m) h
      = (Ok tt, h') ∧
    (j <= c <= length ls)%nat ∧ after c h' ∧
    (∀ i, (j - 1 <= i)%nat -> (i + 1 < c)%nat -> test i = true) ∧
    ((c < length ls)%nat -> test (c - 1) = false).
Proof.
induction n as [|n IH]; intros j h Hj HjN Hafter Hstop.
- exists j, h. rewrite py_range_nil by lia.
  split; [done |]. split; [lia |]. split; [done |]. split; [intros; lia |].
  intros Hc. pose proof (eo_count m h0 Hok) as Hcount. fold ls N in Hcount.
  destruct Hstop as [Hfull | (i & Hi & _)]; unfold len in *; lia.
- rewrite py_range_cons by lia. cbn [for_in].
  destruct (slot_rotor (j - 1)) as (l & r0 & notch & Hl & Hnotch & Hr0 & Hsz & Hpos);
    [lia |].
  assert (h !! l = Some (put_position ((position r0 - 1) mod N) r0)) as Hcur.
  { destruct Hafter as (_ & _ & Hin). rewrite (Hin _ _ _ Hl Hr0).
    by rewrite decide_True by lia. }
  assert (test (j - 1)
          = (((position r0 - 1) mod N + 1) mod N =? notch)) as Htest.
  { unfold test. by rewrite Hl, Hnotch, Hr0. }
  assert (EnigmaMachine.step_rotors_body m (Z.of_nat j) h
          = (if test (j - 1)
             then (let! r' := lift (py_getitem ls (Z.of_nat j)) in
                   on_rotor r' (step (-1)) >> ret Next) h
             else (Ok Break, h))) as Hbody.
  { unfold EnigmaMachine.step_rotors_body. fold ls sp N.
    replace (Z.of_nat j - 1) with (Z.of_nat (j - 1)) by lia.
    erewrite bind_run; [| by rewrite lift_run, (py_getitem_nat _ _ _ Hl)].
    erewrite bind_run; [| by apply on_rotor_get_position].
    erewrite bind_run;
      [| rewrite lift_run, py_mod_pos by apply size_positive; reflexivity].
    erewrite bind_run; [| by rewrite lift_run, (py_getitem_nat _ _ _ Hnotch)].
    cbn [position put_position]. fold N. rewrite <- Htest.
    by destruct (test (j - 1)). }
  destruct (test (j - 1)) eqn:Hhit.
  + assert (j < length ls)%nat as Hjk.
    { destruct Hstop as [Hfull | (i & Hi & Hfalse)]; [unfold len in *; lia |].
      destruct (decide (i = j - 1)%nat) as [-> | ?]; [congruence | lia]. }
    destruct (slot_rotor j Hjk) as (l' & r0' & notch' & Hl' & _ & Hr0' & Hsz' & Hpos').
    assert (h !! l' = Some r0') as Hcur'.
    { destruct Hafter as (_ & _ & Hin). rewrite (Hin _ _ _ Hl' Hr0').
      by rewrite decide_False by lia. }
    destruct (IH (S j) (<[l' := put_position ((position r0' - 1) mod N) r0']> h))
      as (c & h' & Hrun & Hc & Hafter' & Hhits & Hlast).
    * lia.
    * lia.
    * by apply after_step.
    * destruct Hstop as [Hfull | (i & Hi & Hfalse)]; [by left | right].
      exists i. split; [| done].
      destruct (decide (i = j - 1)%nat) as [-> | ?]; [congruence | lia].
    * exists c, h'. split; [| split; [lia | split; [done | split; [| done]]]].
      -- erewrite bind_run.
         2:{ rewrite Hbody.
             erewrite bind_run; [| by rewrite lift_run, (py_getitem_nat _ _ _ Hl')].
             erewrite bind_run.
             2:{ rewrite (on_rotor_step _ _ _ _ Hcur') by (rewrite Hsz'; apply size_positive).
                 rewrite Hsz'. reflexivity. }
             reflexivity. }
         cbn beta iota.
         replace (Z.of_nat j + 1) with (Z.of_nat (S j)) by lia.
         replace (position r0' + -1) with (position r0' - 1) by lia.
         exact Hrun.
      -- intros i Hi Hic.
         destruct (decide (i = j - 1)%nat) as [-> | ?]; [done |].
         apply Hhits; lia.
  + exists j, h. split; [| split; [lia | split; [done | split; [intros; lia | done]]]].
    erewrite bind_run; [| by rewrite Hbody]. reflexivity.
Qed.
Lemma after_none : after 0 h0.
Proof.
split; [done |]. split; [done |]. intros i l r0 _ Hr0. by rewrite Hr0.
Qed.

Lemma after_ok (c : nat) (h : heap) : after c h -> enigma_ok m h.
Proof.
intros (Hlen & Hout & Hin). destruct Hok as [Hnd Hsome Hcount Hnotches Hrotors].
constructor; try done.
intros l Hl. destruct (Hrotors l Hl) as (r0 & Hr0 & Hsz & Hpos).
apply list_elem_of_lookup in Hl as [i Hi].
rewrite (Hin i l r0 Hi Hr0).
destruct (decide (i < c)%nat); [| by exists r0].
eexists. split; [done |]. cbn. split; [done |].
rewrite Hsz. apply Z.mod_pos_bound. apply size_positive.
Qed.

(** One call of [step_rotors]: the rotors in the slots below some [c >= 1]
  step by -1 and the others stay; every stepping rotor but the last one
  passes the carry test on its new position, and the last one fails it
  unless it is the last rotor of the machine. *)
Lemma step_rotors_run :
(len ls = N ∨
 ∃ i l r notch, ls !! i = Some l ∧ h0 !! l = Some r ∧ sp !! i = Some notch ∧
                position r ≠ notch) ->
∃ (c : nat) (h' : heap),
  EnigmaMachine.step_rotors m h0 = (Ok tt, h') ∧
  (1 <= c <= length ls)%nat ∧
  enigma_ok m h' ∧
  length h' = length h0 ∧
  (∀ l, l ∉ ls -> h' !! l = h0 !! l) ∧
  (∀ i l r, ls !! i = Some l -> h0 !! l = Some r ->
     h' !! l = Some (if decide (i < c)%nat
                     then put_position ((position r - 1) mod N) r else r)) ∧
  (∀ i l r' notch, (i + 1 < c)%nat -> ls !! i = Some l -> h' !! l = Some r' ->
     sp !! i = Some notch -> (position r' + 1) mod N = notch) ∧
  (∀ l r' notch, (c < length ls)%nat -> ls !! (c - 1)%nat = Some l ->
     h' !! l = Some r' -> sp !! (c - 1)%nat = Some notch ->
     (position r' + 1) mod N ≠ notch).
Proof.
intros Hstop. pose proof size_positive as HN.
pose proof (eo_some m h0 Hok) as Hsome. fold ls in Hsome.
destruct (slot_rotor 0 Hsome) as (l0 & r0 & notch0 & Hl0 & _ & Hr0 & Hsz0 & Hpos0).
assert (∀ i l r notch, ls !! i = Some l -> h0 !! l = Some r ->
          sp !! i = Some notch ->
          test i = (((position r - 1) mod N + 1) mod N =? notch)) as Htest.
{ intros i l r notch Hl Hr Hn. unfold test. by rewrite Hl, Hn, Hr. }
destruct (cascade_loop (Z.to_nat (N - 1)) 1
            (<[l0 := put_position ((position r0 - 1) mod N) r0]> h0))
  as (c & h' & Hrun & Hc & Hafter & Hhits & Hlast).
- lia.
- lia.
- apply after_step; [apply after_none | done | done].
- destruct Hstop as [Hfull | (i & l & r & notch & Hl & Hr & Hn & Hne)];
    [by left | right].
  exists i. split; [apply lookup_lt_Some in Hl; lia |].
  rewrite (Htest _ _ _ _ Hl Hr Hn).
  destruct (slot_rotor i) as (l' & r' & notch' & Hl' & Hn' & Hr' & Hsz' & Hpos');
    [by eapply lookup_lt_Some |].
  assert (l' = l) as -> by congruence. assert (r' = r) as -> by congruence.
  rewrite shift_unshift_mod by done. by apply Z.eqb_neq.
- exists c, h'. split; [| split; [done | split; [by eapply after_ok |]]].
  + unfold EnigmaMachine.step_rotors. fold ls N.
    assert (py_getitem ls 0 = Ok l0) as Hg0
      by apply (py_getitem_nat _ 0%nat _ Hl0).
    erewrite bind_run.
    2:{ erewrite bind_run; [| by rewrite lift_run, Hg0].
        rewrite (on_rotor_step _ _ _ _ Hr0) by lia. rewrite Hsz0.
        replace (position r0 + -1) with (position r0 - 1) by lia.
        reflexivity. }
    exact Hrun.
  + destruct Hafter as (Hlen & Hout & Hin).
    split; [done |]. split; [done |]. split; [done |]. split.
    * intros i l r' notch Hic Hl Hr' Hn.
      destruct (slot_rotor i) as (l' & r & notch' & Hl' & Hn' & Hr & Hsz & Hpos);
        [by eapply lookup_lt_Some |].
      assert (l' = l) as -> by congruence.
      assert (notch' = notch) as -> by congruence.
      rewrite (Hin _ _ _ Hl Hr), decide_True in Hr' by lia.
      injection Hr' as <-. cbn.
      apply Z.eqb_eq. rewrite <- (Htest _ _ _ _ Hl Hr Hn). apply Hhits; lia.
    * intros l r' notch Hck Hl Hr' Hn.
      destruct (slot_rotor (c - 1)) as (l' & r & notch' & Hl' & Hn' & Hr & Hsz & Hpos);
        [lia |].
      assert (l' = l) as -> by congruence.
      assert (notch' = notch) as -> by congruence.
      rewrite (Hin _ _ _ Hl Hr), decide_True in Hr' by lia.
      injection Hr' as <-. cbn.
      apply Z.eqb_neq. rewrite <- (Htest _ _ _ _ Hl Hr Hn). by apply Hlast.
Qed.
End Cascade.

(** ** Three rotors with the default notches, over [N] ticks *)

Lemma mod_sub_wrap (p j n : Z) :
  0 <= p < n -> 0 <= j <= n ->
  (p - j) mod n = if decide (j <= p) then p - j else p - j + n.
Proof.
  intros Hp Hj. destruct (decide (j <= p)).
  - apply Z.mod_small. lia.
  - rewrite <- (Z_mod_plus_full (p - j) 1 n), Z.mul_1_l.
    apply Z.mod_small. lia.
Qed.

(** Rotor 0, stepping by -1 from [p], stands at 1 before its step exactly
    at tick [p] (at tick [N] when [p = 0]). *)
Lemma carry_tick (p j n : Z) :
  2 <= n -> 0 <= p < n -> 0 <= j < n ->
  (p - j) mod n = 1 <-> (if p =? 0 then n else p) = j + 1.
Proof.
  intros Hn Hp Hj. rewrite mod_sub_wrap by lia.
  destruct (Z.eqb_spec p 0); destruct (decide (j <= p)); lia.
Qed.

Section ThreeRotors.
Variable m : EnigmaMachine.t.
Variables a b c : loc.
Variables ra rb rc : rotor.
Hypothesis Hrotors : EnigmaMachine.rotors m = [a; b; c].
Hypothesis Hnotches : EnigmaMachine.stepping_positions m = [1; 1; 1].
Hypothesis Hpa : 0 <= position ra < EnigmaMachine.rotor_size m.
Hypothesis Hpb : 0 <= position rb < EnigmaMachine.rotor_size m.
Hypothesis Hb1 : position rb ≠ 1.

Let N := EnigmaMachine.rotor_size m.
Let t := if position ra =? 0 then N else position ra.

(** The store after [j] ticks. *)
Let at_tick (j : Z) (h : heap) : Prop :=
enigma_ok m h ∧
h !! a = Some (put_position ((position ra - j) mod N) ra) ∧
h !! b = Some (if decide (t <= j)
               then put_position ((position rb - 1) mod N) rb else rb) ∧
h !! c = Some rc.

Lemma one_tick (j : Z) (h : heap) :
0 <= j < N -> at_tick j h ->
∃ h', EnigmaMachine.step_rotors m h = (Ok tt, h') ∧ at_tick (j + 1) h'.
Proof.
intros Hj (Hok & Ha & Hb & Hc).
assert (3 <= N) as HN.
{ pose proof (eo_count m h Hok) as Hcount. rewrite Hrotors in Hcount.
  unfold len in Hcount. cbn in Hcount. subst N. lia. }
set (qa := (position ra - j) mod N) in *.
assert (0 <= qa < N) as Hqa by (apply Z.mod_pos_bound; lia).
pose proof (carry_tick (position ra) j N ltac:(lia) Hpa Hj) as Htick.
fold qa t in Htick.
destruct (step_rotors_run m h Hok) as
  (k & h' & Hrun & Hk & Hok' & _ & _ & Hin & Hhits & Hlast).
{ right. destruct (decide (qa = 1)) as [Hq | Hq].
  - exists 1%nat, b, rb, 1. rewrite Hrotors, Hnotches.
    rewrite Hb, decide_False by lia. done.
  - exists 0%nat, a, (put_position qa ra), 1. by rewrite Hrotors, Hnotches. }
rewrite Hrotors in Hin, Hhits, Hlast, Hk. rewrite Hnotches in Hhits, Hlast.
fold N in Hin, Hhits, Hlast.
pose proof (Hin 0%nat a _ eq_refl Ha) as Ha'.
pose proof (Hin 1%nat b _ eq_refl Hb) as Hb'.
pose proof (Hin 2%nat c _ eq_refl Hc) as Hc'.
cbn [length] in Hk. rewrite decide_True in Ha' by lia.
cbn [position put_position] in Ha'.
assert ((qa - 1) mod N = (position ra - (j + 1)) mod N) as Hstep.
{ unfold qa. rewrite Zminus_mod_idemp_l. f_equal. lia. }
exists h'. split; [done |]. split; [done |].
assert (k = 1 ∨ k = 2 ∨ k = 3)%nat as [-> | [-> | ->]] by lia.
- assert (qa ≠ 1) as Hq.
  { specialize (Hlast a _ 1 ltac:(cbn; lia) eq_refl Ha' eq_refl).
    cbn [position put_position] in Hlast.
    by rewrite shift_unshift_mod in Hlast. }
  rewrite decide_False in Hb' by lia. rewrite decide_False in Hc' by lia.
  split; [by rewrite Ha', <- Hstep |]. split; [| done].
  rewrite Hb'. destruct (decide (t <= j)), (decide (t <= j + 1)); try done; lia.
- assert (qa = 1) as Hq.
  { specialize (Hhits 0%nat a _ 1 ltac:(lia) eq_refl Ha' eq_refl).
    cbn [position put_position] in Hhits.
    by rewrite shift_unshift_mod in Hhits. }
  rewrite decide_True in Hb' by lia. rewrite decide_False in Hc' by lia.
  split; [by rewrite Ha', <- Hstep |]. split; [| done].
  rewrite Hb'. rewrite decide_False by lia. by rewrite decide_True by lia.
- exfalso.
  assert (qa = 1) as Hq.
  { specialize (Hhits 0%nat a _ 1 ltac:(lia) eq_refl Ha' eq_refl).
    cbn [position put_position] in Hhits.
    by rewrite shift_unshift_mod in Hhits. }
  rewrite decide_True in Hb' by lia. rewrite decide_False in Hb' by lia.
  specialize (Hhits 1%nat b _ 1 ltac:(lia) eq_refl Hb' eq_refl).
  cbn [position put_position] in Hhits.
  by rewrite shift_unshift_mod in Hhits.
Qed.

Lemma many_ticks (n : nat) :
∀ (j : Z) (h : heap),
  0 <= j -> j + Z.of_nat n = N -> at_tick j h ->
  ∃ h', ticks n (EnigmaMachine.step_rotors m) h = (Ok tt, h') ∧ at_tick N h'.
Proof.
induction n as [|n IH]; intros j h Hj HjN Hat.
- exists h. split; [done |]. by replace N with j by lia.
- destruct (one_tick j h ltac:(lia) Hat) as (h1 & Hrun1 & Hat1).
  destruct (IH (j + 1) h1 ltac:(lia) ltac:(lia) Hat1) as (h' & Hrun & Hat').
  exists h'. split; [| done].
  cbn [ticks]. by erewrite bind_run.
Qed.

Lemma full_revolution (h : heap) :
enigma_ok m h -> h !! a = Some ra -> h !! b = Some rb -> h !! c = Some rc ->
∃ h', ticks (Z.to_nat N) (EnigmaMachine.step_rotors m) h = (Ok tt, h') ∧
      h' !! a = Some ra ∧
      h' !! b = Some (put_position ((position rb - 1) mod N) rb) ∧
      h' !! c = Some rc.
Proof.
intros Hok Ha Hb Hc.
assert (3 <= N) as HN.
{ pose proof (eo_count m h Hok) as Hcount. rewrite Hrotors in Hcount.
  unfold len in Hcount. cbn in Hcount. subst N. lia. }
assert (1 <= t <= N) as Ht.
{ subst t. destruct (Z.eqb_spec (position ra) 0); lia. }
destruct (many_ticks (Z.to_nat N) 0 h) as (h' & Hrun & _ & Ha' & Hb' & Hc').
- lia.
- lia.
- split; [done |]. split; [| split; [| done]].
  + rewrite Z.sub_0_r, Z.mod_small by done. by rewrite put_position_same.
  + by rewrite decide_False by lia.
- exists h'. split; [done |]. split; [| split; [| done]].
  + rewrite Ha'. rewrite mod_sub_wrap, decide_False by lia.
    replace (position ra - N + N) with (position ra) by lia.
    by rewrite put_position_same.
  + by rewrite Hb', decide_True by lia.
Qed.
End ThreeRotors.

Example enigma3_built :
  EnigmaMachine.new [0; 1; 2]%nat None None (Some 3%nat) (heap3 0 0 0)
  = (Ok enigma3, heap3 0 0 0).
Proof. by vm_compute. Qed.

(** C5, as stated, fails.  With the default notches on four symbols: from
    positions (2,0,0) rotor 0 steps to 1, its notch, and rotor 1 does not
    move, while from (1,0,0) rotor 0 steps to 0 and rotor 1 does move: the
    code compares the notch with the new position plus one.  And from
    (0,1,0) four ticks leave rotor 2 at 3: when rotor 1 carries, rotor 2
    steps. *)
Lemma enigma_notch_rule_as_specified_fails :
  (EnigmaMachine.step_rotors enigma3 (heap3 2 0 0) = (Ok tt, heap3 1 0 0) ∧
   ¬ first_carry_as_specified enigma3 (heap3 2 0 0) (heap3 1 0 0)) ∧
  (EnigmaMachine.step_rotors enigma3 (heap3 1 0 0) = (Ok tt, heap3 0 3 0) ∧
   ¬ first_carry_as_specified enigma3 (heap3 1 0 0) (heap3 0 3 0)) ∧
  (ticks 4 (EnigmaMachine.step_rotors enigma3) (heap3 0 1 0)
     = (Ok tt, heap3 0 0 3) ∧
   ¬ scenario_B_as_specified enigma3 (heap3 0 1 0)).
Proof.
  split; [| split].
  - split; [by vm_compute |]. unfold first_carry_as_specified. cbn.
    intros Hiff. destruct Hiff as [_ H]. exact (H eq_refl eq_refl).
  - split; [by vm_compute |]. unfold first_carry_as_specified. cbn.
    intros Hiff. destruct Hiff as [H _].
    assert (Some 0 = Some 1) as Heq by (apply H; discriminate).
    discriminate Heq.
  - split; [by vm_compute |]. intros H.
    destruct (H (heap3 0 0 3)) as (_ & _ & H2); [by vm_compute |].
    vm_compute in H2. discriminate H2.
Qed.

Lemma default_notches (n : Z) (k : nat) :
  length (map (λ _ : Z, 1) (py_range 0 n)) = k ->
  map (λ _ : Z, 1) (py_range 0 n) = replicate k 1.
Proof.
  intros <-. induction (py_range 0 n) as [|x xs IH]; [done |].
  cbn. by f_equal.
Qed.

(** C5 (amended): on a machine whose slots hold distinct rotors of its size
    N and whose rotor count is at most N, a call of step_rotors that does
    not carry out of the last rotor steps rotor 0 by -1 and then a prefix
    of the rotors: rotor i+1 steps iff rotor i stepped and (rotor i's new
    position + 1) mod N equals rotor i's notch, and the cascade stops at the
    first rotor that fails this.  With the default notch list, a 3-rotor
    machine whose rotor 1 is not at position 1 has, after exactly N calls,
    rotor 0 back at its position, rotor 1 one step(-1) further, and rotor 2
    as it was. *)
Theorem enigma_step_rotors_cascade (m : EnigmaMachine.t) (h : heap) :
  enigma_ok m h ->
  ((len (EnigmaMachine.rotors m) = EnigmaMachine.rotor_size m ∨
    ∃ i l r notch,
      EnigmaMachine.rotors m !! i = Some l ∧ h !! l = Some r ∧
      EnigmaMachine.stepping_positions m !! i = Some notch ∧
      position r ≠ notch) ->
   ∃ (c : nat) (h' : heap),
     EnigmaMachine.step_rotors m h = (Ok tt, h') ∧
     (1 <= c <= length (EnigmaMachine.rotors m))%nat ∧
     enigma_ok m h' ∧
     (∀ l, l ∉ EnigmaMachine.rotors m -> h' !! l = h !! l) ∧
     (∀ i l r, EnigmaMachine.rotors m !! i = Some l -> h !! l = Some r ->
        h' !! l = Some (if decide (i < c)%nat
                        then put_position
                               ((position r - 1) mod EnigmaMachine.rotor_size m) r
                        else r)) ∧
     (∀ i l r' notch,
        (i + 1 < c)%nat -> EnigmaMachine.rotors m !! i = Some l ->
        h' !! l = Some r' ->
        EnigmaMachine.stepping_positions m !! i = Some notch ->
        (position r' + 1) mod EnigmaMachine.rotor_size m = notch) ∧
     (∀ l r' notch,
        (c < length (EnigmaMachine.rotors m))%nat ->
        EnigmaMachine.rotors m !! (c - 1)%nat = Some l ->
        h' !! l = Some r' ->
        EnigmaMachine.stepping_positions m !! (c - 1)%nat = Some notch ->
        (position r' + 1) mod EnigmaMachine.rotor_size m ≠ notch)) ∧
  (∀ m0 a b c ra rb rc,
     EnigmaMachine.set_stepping_positions None m0 h = (Ok m, h) ->
     EnigmaMachine.rotors m = [a; b; c] ->
     h !! a = Some ra -> h !! b = Some rb -> h !! c = Some rc ->
     position rb ≠ 1 ->
     ∃ h',
       ticks (Z.to_nat (EnigmaMachine.rotor_size m))
         (EnigmaMachine.step_rotors m) h = (Ok tt, h') ∧
       h' !! a = Some ra ∧
       h' !! b = Some (put_position
                         ((position rb - 1) mod EnigmaMachine.rotor_size m) rb) ∧
       h' !! c = Some rc).
Proof.
  intros Hok. split.
  - intros Hstop.
    destruct (step_rotors_run m h Hok Hstop)
      as (c & h' & Hrun & Hc & Hok' & _ & Hout & Hin & Hhits & Hlast).
    exists c, h'. repeat (split; [done |]). done.
  - intros m0 a b c ra rb rc Hset Hrotors Ha Hb Hc Hb1.
    assert (EnigmaMachine.stepping_positions m = [1; 1; 1]) as Hnotches.
    { pose proof (eo_notches m h Hok) as Hlen. rewrite Hrotors in Hlen.
      unfold EnigmaMachine.set_stepping_positions, ret in Hset.
      injection Hset as <-. cbn in Hlen |- *.
      by rewrite (default_notches _ 3). }
    assert (∀ l r, l ∈ EnigmaMachine.rotors m -> h !! l = Some r ->
              0 <= position r < EnigmaMachine.rotor_size m) as Hpos.
    { intros l r Hl Hr.
      destruct (eo_rotors m h Hok l Hl) as (r' & Hr' & Hsz & Hp).
      assert (r' = r) as -> by congruence. lia. }
    apply (full_revolution m a b c ra rb rc Hrotors Hnotches); try done.
    + apply (Hpos a); [rewrite Hrotors; repeat constructor | done].
    + apply (Hpos b); [rewrite Hrotors; repeat constructor | done].
Qed.

(** ** Witnesses *)

Lemma sample_rotor_ok : rotor_ok sample_rotor.
Proof.
  constructor; cbn.
  - reflexivity.
  - lia.
  - change (py_range 0 4) with [0; 1; 2; 3]. solve_Permutation.
  - reflexivity.
  - intros i j Hget Hi.
    assert (i = 0 ∨ i = 1 ∨ i = 2 ∨ i = 3) as [-> | [-> | [-> | ->]]] by lia;
      vm_compute in Hget; injection Hget as <-; reflexivity.
Qed.

Lemma enigma3_ok (p0 p1 p2 : Z) :
  0 <= p0 < 4 -> 0 <= p1 < 4 -> 0 <= p2 < 4 -> enigma_ok enigma3 (heap3 p0 p1 p2).
Proof.
  intros H0 H1 H2. constructor; cbn.
  - repeat (constructor; [by rewrite ?elem_of_cons, elem_of_nil; lia |]).
    constructor.
  - lia.
  - unfold len. cbn. lia.
  - reflexivity.
  - intros l Hl.
    rewrite !elem_of_cons, elem_of_nil in Hl.
    destruct Hl as [-> | [-> | [-> | []]]]; eexists; (split; [reflexivity |]);
      cbn; lia.
Qed.

(** The round trip of C2 on the sample rotor, at x = 1 and y = 3. *)
Lemma rotor_decode_encode_round_trip_witness :
  rotor_ok sample_rotor ∧
  (∃ c, encode true 1 sample_rotor = (Ok c, sample_rotor) ∧
        decode true c sample_rotor = (Ok 1, sample_rotor)) ∧
  (∃ d, decode true 3 sample_rotor = (Ok d, sample_rotor) ∧
        encode true d sample_rotor = (Ok 3, sample_rotor)).
Proof.
  split; [exact sample_rotor_ok |].
  apply (rotor_decode_encode_round_trip true sample_rotor 1 3 sample_rotor_ok);
    cbn; lia.
Defined.

(** C4, as stated, fails: with the assertions compiled out, the mode in
    which the header of rotor.py says the methods do not validate their
    input, the sample rotor (a valid permutation wiring on four symbols, at
    position 2) takes the inputs 5 and -1 and returns symbols for them. *)
Lemma rotor_range_check_as_specified_fails :
  rotor_ok sample_rotor ∧
  encode false 5 sample_rotor = (Ok 2, sample_rotor) ∧
  decode false (-1) sample_rotor = (Ok 2, sample_rotor) ∧
  ¬ range_check_as_specified false sample_rotor.
Proof.
  split; [exact sample_rotor_ok |].
  split; [by vm_compute |]. split; [by vm_compute |].
  intros H. destruct (H 5) as [(e & r' & He) _]; [cbn; lia |].
  vm_compute in He. discriminate He.
Qed.

(** C4 on the sample rotor: with the assertions 4 is rejected and 1 is
    substituted; without them 5 is substituted as well. *)
Lemma rotor_encode_decode_range_and_formula_witness :
  rotor_ok sample_rotor ∧
  (encode true 4 sample_rotor
     = (Raise (AssertionError "Rotor input outside valid range"), sample_rotor) ∧
   decode true 4 sample_rotor
     = (Raise (AssertionError "Rotor input outside valid range"), sample_rotor)) ∧
  (∃ y, py_getitem (wiring sample_rotor)
          ((1 - position sample_rotor) mod size sample_rotor) = Ok y ∧
        encode true 1 sample_rotor
          = (Ok ((y + position sample_rotor) mod size sample_rotor), sample_rotor)) ∧
  (∃ y, py_getitem (wiring sample_rotor)
          ((5 - position sample_rotor) mod size sample_rotor) = Ok y ∧
        encode false 5 sample_rotor
          = (Ok ((y + position sample_rotor) mod size sample_rotor), sample_rotor)).
Proof.
  split; [exact sample_rotor_ok |]. split; [| split].
  - apply (proj1 (rotor_encode_decode_range_and_formula sample_rotor 4
                    sample_rotor_ok)).
    cbn. lia.
  - apply (proj1 (proj2 (rotor_encode_decode_range_and_formula sample_rotor 1
                           sample_rotor_ok))).
    cbn. lia.
  - apply (proj2 (proj2 (rotor_encode_decode_range_and_formula sample_rotor 5
                           sample_rotor_ok))).
Defined.

(** C5 on the three-rotor sample machine from positions (0,0,0): after four
    ticks rotor 0 is at 0 again, rotor 1 at 3 and rotor 2 at 0. *)
Lemma enigma_step_rotors_cascade_witness :
  enigma_ok enigma3 (heap3 0 0 0) ∧
  ∃ h', ticks (Z.to_nat (EnigmaMachine.rotor_size enigma3))
          (EnigmaMachine.step_rotors enigma3) (heap3 0 0 0) = (Ok tt, h') ∧
        h' !! 0%nat = Some (put_position 0 (identity_rotor 4)) ∧
        h' !! 1%nat = Some (put_position ((0 - 1) mod 4)
                              (put_position 0 (identity_rotor 4))) ∧
        h' !! 2%nat = Some (put_position 0 (identity_rotor 4)).
Proof.
  assert (enigma_ok enigma3 (heap3 0 0 0)) as Hok by (apply enigma3_ok; lia).
  split; [exact Hok |].
  apply (proj2 (enigma_step_rotors_cascade enigma3 (heap3 0 0 0) Hok)
           (EnigmaMachine.mk [0; 1; 2]%nat 3 4 None 3%nat [])
           0%nat 1%nat 2%nat);
    try reflexivity.
  cbn. lia.
Defined.

(** * Further properties of the code *)

(** ** rotor.py: positions *)

(** [set_position] rolls over: the stored position is [p mod N], it lies in
    [0,N), the other attributes stay, and positions that differ by a
    multiple of [N] give the same rotor. *)
Theorem set_position_rolls_over (r : rotor) (p k : Z) :
  0 < size r ->
  ∃ r', set_position p r = (Ok tt, r') ∧
        position r' = p mod size r ∧ 0 <= position r' < size r ∧
        put_position (position r) r' = r ∧
        set_position (p + k * size r) r = (Ok tt, r').
Proof.
  intros Hn. exists (put_position (p mod size r) r).
  rewrite !set_position_run by done. cbn.
  split; [done |]. split; [done |]. split; [by apply Z.mod_pos_bound |].
  split; [by destruct r |]. by rewrite Z_mod_plus_full.
Qed.

(** [set_position] on the sample rotor, at -1 and at -1 + 3 * 4. *)
Lemma set_position_rolls_over_witness :
  0 < size sample_rotor ∧
  ∃ r', set_position (-1) sample_rotor = (Ok tt, r') ∧
        position r' = (-1) mod size sample_rotor ∧
        0 <= position r' < size sample_rotor ∧
        put_position (position sample_rotor) r' = sample_rotor ∧
        set_position (-1 + 3 * size sample_rotor) sample_rotor = (Ok tt, r').
Proof.
  split; [cbn; lia |].
  apply (set_position_rolls_over sample_rotor (-1) 3). cbn. lia.
Defined.

(** Steps add up: [step(a)] followed by [step(b)] leaves the rotor where
    [step(a + b)] leaves it, a negative count undoing a positive one; and a
    rotor at a normalised position that is stepped by a multiple of [N] in
    all is back where it was. *)
Theorem step_composes (r : rotor) (a b : Z) :
  0 < size r ->
  ∃ r1 r2, step a r = (Ok tt, r1) ∧ step b r1 = (Ok tt, r2) ∧
           step (a + b) r = (Ok tt, r2) ∧
           0 <= position r2 < size r ∧
           (0 <= position r < size r -> (a + b) mod size r = 0 -> r2 = r).
Proof.
  intros Hn.
  exists (put_position ((position r + a) mod size r) r),
         (put_position ((position r + (a + b)) mod size r) r).
  rewrite !step_run by done. cbn.
  split; [done |]. split.
  { rewrite Zplus_mod_idemp_l.
    by replace (position r + a + b) with (position r + (a + b)) by lia. }
  split; [done |]. split; [by apply Z.mod_pos_bound |].
  intros Hp Hab.
  rewrite Z.add_mod, Hab, Z.add_0_r, Z.mod_mod, Z.mod_small by lia.
  by destruct r.
Qed.

(** Two steps forward and two back on the sample rotor. *)
Lemma step_composes_witness :
  0 < size sample_rotor ∧
  ∃ r1 r2, step 2 sample_rotor = (Ok tt, r1) ∧ step (-2) r1 = (Ok tt, r2) ∧
           step (2 + -2) sample_rotor = (Ok tt, r2) ∧
           0 <= position r2 < size sample_rotor ∧
           (0 <= position sample_rotor < size sample_rotor ->
            (2 + -2) mod size sample_rotor = 0 -> r2 = sample_rotor).
Proof.
  split; [cbn; lia |].
  apply (step_composes sample_rotor 2 (-2)). cbn. lia.
Defined.

(** ** rotor.py: the substitution as a map on symbols *)

(** [encode] and [decode] send [0,N) onto [0,N) one to one, so the output
    of one rotor is a valid input of the next. *)
Theorem encode_permutes_symbols (debug : bool) (r : rotor) :
  rotor_ok r ->
  (∀ x, 0 <= x < size r ->
     ∃ y, encode debug x r = (Ok y, r) ∧ 0 <= y < size r) ∧
  (∀ y, 0 <= y < size r ->
     ∃ x, 0 <= x < size r ∧ encode debug x r = (Ok y, r)) ∧
  (∀ x x' y, 0 <= x < size r -> 0 <= x' < size r ->
     encode debug x r = (Ok y, r) -> encode debug x' r = (Ok y, r) -> x = x') ∧
  (∀ y, 0 <= y < size r ->
     ∃ x, decode debug y r = (Ok x, r) ∧ 0 <= x < size r) ∧
  (∀ y y' x, 0 <= y < size r -> 0 <= y' < size r ->
     decode debug y r = (Ok x, r) -> decode debug y' r = (Ok x, r) -> y = y').
Proof.
  intros Hok. repeat split.
  - intros x Hx.
    destruct (decode_encode r Hok debug x Hx) as (c & Hc & He & _). eauto.
  - intros y Hy.
    destruct (encode_decode r Hok debug y Hy) as (d & Hd & _ & He). eauto.
  - intros x x' y Hx Hx' He He'.
    destruct (decode_encode r Hok debug x Hx) as (c & _ & Hc & Hd).
    destruct (decode_encode r Hok debug x' Hx') as (c' & _ & Hc' & Hd').
    assert (c = y) as -> by congruence. assert (c' = y) as -> by congruence.
    congruence.
  - intros y Hy.
    destruct (encode_decode r Hok debug y Hy) as (d & Hd & Hdec & _). eauto.
  - intros y y' x Hy Hy' Hd Hd'.
    destruct (encode_decode r Hok debug y Hy) as (d & _ & Hdd & He).
    destruct (encode_decode r Hok debug y' Hy') as (d' & _ & Hdd' & He').
    assert (d = x) as -> by congruence. assert (d' = x) as -> by congruence.
    congruence.
Qed.

(** The sample rotor permutes its four symbols. *)
Lemma encode_permutes_symbols_witness :
  rotor_ok sample_rotor ∧
  ∃ y, encode true 3 sample_rotor = (Ok y, sample_rotor) ∧
       0 <= y < size sample_rotor.
Proof.
  split; [exact sample_rotor_ok |].
  apply (proj1 (encode_permutes_symbols true sample_rotor sample_rotor_ok)).
  cbn. lia.
Defined.

(** Stepping a rotor by [d] shifts its substitution by [d] on both sides:
    after [step(d)], [encode(x)] is what [encode((x - d) mod N)] was, plus
    [d] modulo [N]. *)
Theorem step_shifts_substitution (debug : bool) (r : rotor) (d x : Z) :
  rotor_ok r -> 0 <= x < size r ->
  ∃ r1 e, step d r = (Ok tt, r1) ∧
          encode debug ((x - d) mod size r) r = (Ok e, r) ∧
          encode debug x r1 = (Ok ((e + d) mod size r), r1).
Proof.
  intros Hok Hx. pose proof (ok_nonempty r Hok) as Hn.
  set (N := size r) in *.
  assert (0 <= (x - d) mod N < N) as Hxd by (apply Z.mod_pos_bound; lia).
  assert (0 <= ((x - d) mod N - position r) mod N < N) as Hk
    by (apply Z.mod_pos_bound; lia).
  destruct (wiring_get r Hok _ Hk) as (y & Hy & _ & _).
  exists (put_position ((position r + d) mod N) r), ((y + position r) mod N).
  split; [by apply step_run |].
  split; [by apply encode_run |].
  pose proof (put_position_ok r ((position r + d) mod N) Hok) as Hok1.
  rewrite (encode_run _ Hok1 debug x y); cbn; fold N; try done.
  - do 2 f_equal. rewrite Zplus_mod_idemp_l, Zplus_mod_idemp_r.
    f_equal. lia.
  - rewrite <- Hy. f_equal.
    rewrite Zminus_mod_idemp_r, Zminus_mod_idemp_l. f_equal. lia.
Qed.

(** The sample rotor stepped by 3, at symbol 1. *)
Lemma step_shifts_substitution_witness :
  rotor_ok sample_rotor ∧
  ∃ r1 e, step 3 sample_rotor = (Ok tt, r1) ∧
          encode true ((1 - 3) mod size sample_rotor) sample_rotor
            = (Ok e, sample_rotor) ∧
          encode true 1 r1 = (Ok ((e + 3) mod size sample_rotor), r1).
Proof.
  split; [exact sample_rotor_ok |].
  apply (step_shifts_substitution true sample_rotor 3 1 sample_rotor_ok).
  cbn. lia.
Defined.

(** With the assertions compiled out, [encode] and [decode] accept every
    integer and treat it as its residue modulo [N]. *)
Theorem unchecked_input_wraps (r : rotor) (x : Z) :
  rotor_ok r ->
  (∃ v, encode false x r = (Ok v, r) ∧
        encode true (x mod size r) r = (Ok v, r)) ∧
  (∃ v, decode false x r = (Ok v, r) ∧
        decode true (x mod size r) r = (Ok v, r)).
Proof.
  intros Hok. pose proof (ok_nonempty r Hok) as Hn.
  assert (0 <= x mod size r < size r) as Hx by (apply Z.mod_pos_bound; lia).
  assert ((x mod size r - position r) mod size r
          = (x - position r) mod size r) as Heq
    by apply Zminus_mod_idemp_l.
  assert (0 <= (x - position r) mod size r < size r) as Hk
    by (apply Z.mod_pos_bound; lia).
  split.
  - destruct (wiring_get r Hok _ Hk) as (y & Hy & _ & _).
    exists ((y + position r) mod size r). split.
    + unfold encode, assert_, bind, gets, ret, lift. cbn.
      rewrite py_mod_pos, Hy by done. cbn. by rewrite py_mod_pos.
    + apply encode_run; [done | done | by rewrite Heq].
  - destruct (reverse_wiring_get r Hok _ Hk) as (y & Hy & _ & _).
    exists ((y + position r) mod size r). split.
    + unfold decode, assert_, bind, gets, ret, lift. cbn.
      rewrite py_mod_pos, Hy by done. cbn. by rewrite py_mod_pos.
    + apply decode_run; [done | done | by rewrite Heq].
Qed.

(** The sample rotor at the input -3. *)
Lemma unchecked_input_wraps_witness :
  rotor_ok sample_rotor ∧
  ∃ v, encode false (-3) sample_rotor = (Ok v, sample_rotor) ∧
       encode true ((-3) mod size sample_rotor) sample_rotor
         = (Ok v, sample_rotor).
Proof.
  split; [exact sample_rotor_ok |].
  apply (proj1 (unchecked_input_wraps sample_rotor (-3) sample_rotor_ok)).
Defined.

(** [reverse_rotor] never flips a rotor: it raises for every rotor (on the
    unbound name [reverse_wiring], or on the unassigned local [reversed]
    when the size is not positive) and leaves the rotor as it was. *)
Theorem reverse_rotor_always_raises (r : rotor) :
  reverse_rotor r
  = (Raise (if decide (0 < size r) then NameError "reverse_wiring"
            else UnboundLocalError "reversed"), r).
Proof.
  unfold reverse_rotor, bind, gets. cbn.
  destruct (decide (0 < size r)) as [Hn | Hn].
  - by rewrite py_range_cons.
  - by rewrite py_range_nil by lia.
Qed.

(** ** rotor.py: construction with the assertions compiled out *)

Lemma py_index_valid {A} (l : list A) (i : Z) :
  - len l <= i < len l -> ∃ k, py_index l i = Ok k.
Proof.
  intros Hi. unfold py_index.
  destruct (Z.leb_spec 0 i); destruct (Z.ltb_spec i (len l)); cbn; eauto;
    try lia.
  destruct (Z.leb_spec (- len l) i); destruct (Z.ltb_spec i 0); cbn; eauto; lia.
Qed.

Lemma py_index_invalid {A} (l : list A) (i : Z) :
  ¬ (- len l <= i < len l) -> py_index l i = Raise IndexError.
Proof.
  intros Hi. unfold py_index.
  destruct (Z.leb_spec 0 i); destruct (Z.ltb_spec i (len l)); cbn;
    try (unfold len in *; lia);
  destruct (Z.leb_spec (- len l) i); destruct (Z.ltb_spec i 0); cbn;
    try done; unfold len in *; lia.
Qed.

Lemma set_wiring_loop_unchecked (w : list Z) (n : nat) :
  ∀ (k : nat) (rw : list Z),
    (k + n = length w)%nat -> length rw = length w ->
    (Forall (λ j, - len w <= j < len w) (drop k w) ->
       ∃ rw',
         for_in (py_range (Z.of_nat k) (len w)) (set_wiring_body false w)
           (mk_rotor (len w) w rw 0 false)
         = (Ok tt, mk_rotor (len w) w rw' 0 false) ∧
         length rw' = length w) ∧
    (¬ Forall (λ j, - len w <= j < len w) (drop k w) ->
       ∃ rw',
         for_in (py_range (Z.of_nat k) (len w)) (set_wiring_body false w)
           (mk_rotor (len w) w rw 0 false)
         = (Raise IndexError, mk_rotor (len w) w rw' 0 false)).
Proof.
  induction n as [|n IH]; intros k rw Hk Hlen.
  - rewrite py_range_nil by (unfold len; lia).
    rewrite drop_ge by lia. split.
    + intros _. by exists rw.
    + intros H. destruct H. constructor.
  - rewrite py_range_cons by (unfold len; lia).
    destruct (lookup_lt_is_Some_2 w k) as [j Hj]; [lia |].
    rewrite (drop_S _ _ _ Hj).
    assert (py_getitem w (Z.of_nat k) = Ok j) as Hget
      by by apply py_getitem_nat.
    assert (len rw = len w) as HlenZ by (unfold len; lia).
    destruct (decide (- len w <= j < len w)) as [Hv | Hv].
    + destruct (py_index_valid rw j) as [i Hi]; [by rewrite HlenZ |].
      destruct (IH (S k) (<[i := Z.of_nat k]> rw)) as [IHok IHbad];
        [lia | by rewrite length_insert |].
      assert (for_in (Z.of_nat k :: py_range (Z.of_nat k + 1) (len w))
                (set_wiring_body false w) (mk_rotor (len w) w rw 0 false)
              = for_in (py_range (Z.of_nat (S k)) (len w))
                  (set_wiring_body false w)
                  (mk_rotor (len w) w (<[i := Z.of_nat k]> rw) 0 false))
        as Hstep.
      { cbn [for_in]. unfold bind at 1. unfold set_wiring_body at 1.
        unfold assert_, bind, gets, ret, lift, modify, py_setitem. cbn.
        rewrite Hget. cbn. rewrite Hi. cbn.
        by replace (Z.of_nat k + 1) with (Z.of_nat (S k)) by lia. }
      rewrite Hstep. split.
      * intros Hall. apply IHok. by inversion Hall.
      * intros Hnot. apply IHbad. intros Hall. apply Hnot. by constructor.
    + split; [intros Hall; by inversion Hall |].
      intros _. exists rw.
      cbn [for_in]. unfold bind at 1. unfold set_wiring_body at 1.
      unfold assert_, bind, gets, ret, lift, modify, py_setitem. cbn.
      rewrite Hget. cbn. by rewrite py_index_invalid by by rewrite HlenZ.
Qed.

(** With the assertions compiled out, construction validates nothing: it
    succeeds exactly on the wirings whose values are valid subscripts of a
    list of the wiring's length (negative ones included, repeated ones too),
    and raises IndexError on the others. *)
Theorem unchecked_construction_accepts_valid_subscripts (w : list Z) :
  (Forall (λ j, - len w <= j < len w) w ->
     ∃ r, rotor_new false w = Ok r ∧ size r = len w ∧ wiring r = w ∧
          length (reverse_wiring r) = length w ∧
          position r = 0 ∧ reversed r = false) ∧
  (¬ Forall (λ j, - len w <= j < len w) w ->
     rotor_new false w = Raise IndexError).
Proof.
  destruct (set_wiring_loop_unchecked w (length w) 0 (py_range 0 (len w)))
    as [Hok Hbad].
  - lia.
  - rewrite length_py_range. unfold len. lia.
  - rewrite drop_0 in Hok, Hbad.
    assert (∀ res, for_in (py_range (Z.of_nat 0) (len w)) (set_wiring_body false w)
              (mk_rotor (len w) w (py_range 0 (len w)) 0 false) = res ->
            set_wiring false w blank_rotor = res) as Hrun.
    { intros res <-. reflexivity. }
    split.
    + intros Hall. destruct (Hok Hall) as (rw' & Hloop & Hlen).
      exists (mk_rotor (len w) w rw' 0 false).
      unfold rotor_new. by rewrite (Hrun _ Hloop).
    + intros Hnot. destruct (Hbad Hnot) as (rw' & Hloop).
      unfold rotor_new. by rewrite (Hrun _ Hloop).
Qed.

(** With the assertions compiled out, a non-empty permutation of [0..N-1]
    is built into a well-formed rotor at position 0 with the flag cleared. *)
Theorem unchecked_construction_of_permutation (w : list Z) :
  w ≠ [] -> w ≡ₚ py_range 0 (len w) ->
  ∃ r, rotor_new false w = Ok r ∧ rotor_ok r ∧ size r = len w ∧
       wiring r = w ∧ position r = 0 ∧ reversed r = false.
Proof.
  intros Hne Hperm.
  destruct (set_wiring_unchecked w blank_rotor Hne Hperm)
    as (r & Hrun & Hok & Hw & Hp & Hf).
  exists r. unfold rotor_new. rewrite Hrun.
  repeat (split; [done |]). split; [| done].
  rewrite (ok_size r Hok). by rewrite Hw.
Qed.

(** The cyclic wiring on four symbols. *)
Lemma unchecked_construction_of_permutation_witness :
  [1; 2; 3; 0] ≠ [] ∧
  ∃ r, rotor_new false [1; 2; 3; 0] = Ok r ∧ rotor_ok r ∧
       size r = len [1; 2; 3; 0] ∧ wiring r = [1; 2; 3; 0] ∧
       position r = 0 ∧ reversed r = false.
Proof.
  split; [discriminate |].
  apply (unchecked_construction_of_permutation [1; 2; 3; 0]);
    [discriminate |].
  change (py_range 0 (len [1; 2; 3; 0])) with [0; 1; 2; 3].
  solve_Permutation.
Defined.

(** A [set_wiring] that fails under the assertions is not undone: the
    rotor it was called on has already lost its position and its flag and
    taken the new size, and from a non-empty wiring also the new wiring and
    an identity reverse table. *)
Theorem failed_set_wiring_is_kept (r0 : rotor) (w : list Z) :
  ∃ e, set_wiring true w r0
       = (Raise e,
          match w with
          | [] => mk_rotor 0 (wiring r0) (reverse_wiring r0) 0 false
          | _ :: _ => mk_rotor (len w) w (py_range 0 (len w)) 0 false
          end).
Proof.
  destruct w as [|j w].
  - eexists. reflexivity.
  - unfold set_wiring.
    unfold bind at 1 2 3 4 5 6 7. unfold modify, assert_, bind, gets, ret.
    cbn [fst snd size put_size put_position put_reversed put_wiring
         put_reverse_wiring position reversed wiring reverse_wiring].
    assert (0 < len (j :: w)) as Hpos by (unfold len; cbn; lia).
    apply Z.ltb_lt in Hpos as Hpos'. rewrite Hpos'.
    rewrite py_range_cons by done. cbn [for_in].
    unfold bind at 1. unfold set_wiring_body.
    unfold assert_, bind, gets, ret, lift, raise, py_getitem_tuple.
    cbn [fst snd size put_size put_position put_reversed put_wiring
         put_reverse_wiring position reversed wiring reverse_wiring].
    rewrite (proj2 (py_getitem_in_range (j :: w) 0 j ltac:(lia)) eq_refl).
    rewrite <- (py_range_cons 0 (len (j :: w))) by done.
    destruct ((0 <=? j) && (j <? len (j :: w))); eexists; reflexivity.
Qed.

(** A rotor of size 0, which is what the empty wiring gives when the
    assertions are compiled out, divides by zero in every method that
    reduces modulo the size, and is left as it was. *)
Theorem empty_rotor_divides_by_zero (r : rotor) (p x : Z) :
  size r = 0 ->
  set_position p r = (Raise ZeroDivisionError, r) ∧
  step p r = (Raise ZeroDivisionError, r) ∧
  encode false x r = (Raise ZeroDivisionError, r) ∧
  decode false x r = (Raise ZeroDivisionError, r) ∧
  encode true x r
    = (Raise (AssertionError "Rotor input outside valid range"), r).
Proof.
  intros Hn.
  assert ((0 <=? x) && (x <? 0) = false) as Hb
    by (apply out_of_range_test; lia).
  unfold set_position, step, encode, decode, assert_, bind, gets, ret, lift,
    raise, modify. cbn. rewrite Hn. cbn. rewrite Hb.
  repeat split.
Qed.

(** The rotor built from the empty wiring. *)
Lemma empty_rotor_divides_by_zero_witness :
  rotor_new false [] = Ok blank_rotor ∧ size blank_rotor = 0 ∧
  set_position 3 blank_rotor = (Raise ZeroDivisionError, blank_rotor) ∧
  step 3 blank_rotor = (Raise ZeroDivisionError, blank_rotor) ∧
  encode false 0 blank_rotor = (Raise ZeroDivisionError, blank_rotor) ∧
  decode false 0 blank_rotor = (Raise ZeroDivisionError, blank_rotor) ∧
  encode true 0 blank_rotor
    = (Raise (AssertionError "Rotor input outside valid range"), blank_rotor).
Proof.
  split; [reflexivity |]. split; [reflexivity |].
  apply (empty_rotor_divides_by_zero blank_rotor 3 0). reflexivity.
Defined.

(** ** RotorBank: construction *)

Lemma bind_fail {S A B} (m : M S A) (k : A -> M S B) (s s' : S) (e : exn) :
  m s = (Raise e, s') -> bind m k s = (Raise e, s').
Proof. intros Hm. unfold bind. by rewrite Hm. Qed.

(** The size check of a bank's (or machine's) rotor list, under the
    assertions. *)
Lemma size_check_loop (n : Z) (rs : list loc) (h : heap) :
  Forall (λ l, is_Some (h !! l)) rs ->
  (Forall (λ l, ∃ r, h !! l = Some r ∧ size r = n) rs ->
     for_in rs (fun r =>
       assert_ true (let! k := on_rotor r get_size in ret (k =? n)) "" >>
       ret Next) h = (Ok tt, h)) ∧
  (¬ Forall (λ l, ∃ r, h !! l = Some r ∧ size r = n) rs ->
     for_in rs (fun r =>
       assert_ true (let! k := on_rotor r get_size in ret (k =? n)) "" >>
       ret Next) h = (Raise (AssertionError ""), h)).
Proof.
  induction rs as [|l rs IH]; intros Hin.
  - split; [done |]. intros H. destruct H. constructor.
  - inversion Hin as [|? ? [r Hr] Hin']; subst.
    destruct (IH Hin') as [IHok IHbad].
    assert (on_rotor l get_size h = (Ok (size r), h)) as Hsz.
    { unfold on_rotor, get_size, gets. rewrite Hr. by rewrite list_insert_id. }
    assert ((assert_ true (let! k := on_rotor l get_size in ret (k =? n)) ""
             >> ret Next) h
            = (if size r =? n then Ok Next else Raise (AssertionError ""), h))
      as Hbody.
    { unfold assert_, bind, ret, raise. rewrite Hsz.
      by destruct (size r =? n). }
    cbn [for_in].
    destruct (Z.eqb_spec (size r) n) as [Heq | Hne].
    + erewrite bind_run; [| exact Hbody]. split.
      * intros Hall. apply IHok. by inversion Hall.
      * intros Hnot. apply IHbad. intros Hall. apply Hnot.
        constructor; [by exists r | done].
    + erewrite bind_fail; [| exact Hbody]. split; [| done].
      intros Hall. inversion Hall as [|? ? (r' & Hr' & Hsz') _]; subst.
      congruence.
Qed.

(** [RotorBank(rotors)] (and [RotorMachine.set_cipher_rotors], which calls
    it): the empty list raises IndexError; otherwise the bank takes its
    rotor count from the list and its size from the first rotor, and under
    the assertions a rotor of another size raises AssertionError, while
    with the assertions compiled out mixed sizes are accepted.  The store
    is never written. *)
Theorem bank_construction_checks_sizes (debug : bool) (rs : list loc)
  (h : heap) (l0 : loc) (r0 : rotor) :
  rs !! 0%nat = Some l0 -> h !! l0 = Some r0 ->
  Forall (λ l, is_Some (h !! l)) rs ->
  RotorBank.new debug [] h = (Raise IndexError, h) ∧
  RotorMachine.set_cipher_rotors debug rs h = RotorBank.new debug rs h ∧
  ((debug = false ∨ Forall (λ l, ∃ r, h !! l = Some r ∧ size r = size r0) rs) ->
     RotorBank.new debug rs h
     = (Ok (RotorBank.mk rs (len rs) (size r0)), h)) ∧
  (debug = true ->
   ¬ Forall (λ l, ∃ r, h !! l = Some r ∧ size r = size r0) rs ->
     RotorBank.new debug rs h = (Raise (AssertionError ""), h)).
Proof.
  intros Hl0 Hr0 Hin.
  split; [reflexivity |]. split; [reflexivity |].
  assert (py_getitem rs 0 = Ok l0) as Hget
    by apply (py_getitem_nat _ 0%nat _ Hl0).
  assert (on_rotor l0 get_size h = (Ok (size r0), h)) as Hsz.
  { unfold on_rotor, get_size, gets. rewrite Hr0. by rewrite list_insert_id. }
  destruct (size_check_loop (size r0) rs h Hin) as [Hok Hbad].
  unfold RotorBank.new, RotorBank.set_rotors.
  split.
  - intros Hcase.
    erewrite bind_run; [| by rewrite lift_run, Hget].
    erewrite bind_run; [| exact Hsz].
    destruct debug.
    + destruct Hcase as [? | Hall]; [done |].
      erewrite bind_run; [| by apply Hok]. reflexivity.
    + reflexivity.
  - intros -> Hnot.
    erewrite bind_run; [| by rewrite lift_run, Hget].
    erewrite bind_run; [| exact Hsz].
    erewrite bind_fail; [reflexivity | by apply Hbad].
Qed.

(** The bank over the three rotors of [heap3]. *)
Lemma bank_construction_checks_sizes_witness :
  RotorBank.new true [0; 1; 2]%nat (heap3 0 0 0)
  = (Ok bank3, heap3 0 0 0).
Proof.
  apply (proj1 (proj2 (proj2 (bank_construction_checks_sizes true
           [0; 1; 2]%nat (heap3 0 0 0) 0%nat (identity_rotor 4)
           eq_refl eq_refl
           ltac:(repeat constructor; by eexists))))).
  right. repeat constructor; by eexists.
Defined.

(** ** RotorBank: positions *)

Section BankPositions.
Variable debug : bool.
Variable b : RotorBank.t.
Variable ps : list Z.
Variable h0 : heap.
Hypothesis Hdistinct : NoDup (RotorBank.rotors b).
Hypothesis Hrotors :
  ∀ l, l ∈ RotorBank.rotors b -> ∃ r, h0 !! l = Some r ∧ 0 < size r.
Hypothesis Hcount : len (RotorBank.rotors b) <= RotorBank.rotor_size b + 1.

Let ls := RotorBank.rotors b.

(** The store once the slots below [j] have been given their positions. *)
Let placed (j : nat) (h : heap) : Prop :=
  length h = length h0 ∧
  (∀ l, l ∉ ls -> h !! l = h0 !! l) ∧
  (∀ i l r, ls !! i = Some l -> h0 !! l = Some r ->
     h !! l = Some (match ps !! i with
                    | Some p => if decide (i < j)%nat
                                then put_position (p mod size r) r else r
                    | None => r
                    end)).

Lemma placed_step (j : nat) (h : heap) (l : loc) (r : rotor) (p : Z) :
  placed j h -> ls !! j = Some l -> h0 !! l = Some r -> ps !! j = Some p ->
  placed (S j) (<[l := put_position (p mod size r) r]> h).
Proof.
  intros (Hlen & Hout & Hin) Hl Hr Hp. split; [| split].
  - by rewrite length_insert.
  - intros l' Hl'. rewrite list_lookup_insert_ne; [by apply Hout |].
    intros <-. apply Hl'. by eapply list_elem_of_lookup_2.
  - intros i l' r' Hl' Hr'.
    destruct (decide (i = j)) as [-> | Hne].
    + assert (l' = l) as -> by congruence.
      assert (r' = r) as -> by congruence.
      rewrite list_lookup_insert_eq.
      * rewrite Hp. by rewrite decide_True by lia.
      * rewrite Hlen. by eapply lookup_lt_Some.
    + rewrite list_lookup_insert_ne.
      * rewrite (Hin i l' r' Hl' Hr'). destruct (ps !! i); [| done].
        destruct (decide (i < j)%nat), (decide (i < S j)%nat); try done; lia.
      * intros <-. apply Hne.
        eapply NoDup_lookup; [exact Hdistinct | exact Hl' | exact Hl].
Qed.

Lemma set_positions_loop (n : nat) :
  ∀ (j : nat) (h : heap),
    (j <= length ls)%nat -> (j <= length ps)%nat ->
    (j + n = length ls)%nat -> placed j h ->
    ∃ h',
      for_in (py_range (Z.of_nat j) (len ls)) (fun i =>
        assert_ debug (ret ((0 <=? i) && (i <=? RotorBank.rotor_size b))) "" >>
        let! r := lift (py_getitem ls i) in
        let! p := lift (py_getitem ps i) in
        on_rotor r (set_position p) >>
        ret Next) h
      = (if decide (length ls <= length ps)%nat then Ok tt
         else Raise IndexError, h') ∧
      placed (length ls `min` length ps) h'.
Proof.
  induction n as [|n IH]; intros j h Hjk Hjp Hn Hplaced.
  - exists h. rewrite py_range_nil by (unfold len; lia).
    rewrite decide_True by lia. split; [done |].
    by replace (length ls `min` length ps)%nat with j by lia.
  - rewrite py_range_cons by (unfold len; lia). cbn [for_in].
    destruct (lookup_lt_is_Some_2 ls j) as [l Hl]; [lia |].
    destruct (Hrotors l) as (r & Hr & Hsz); [by eapply list_elem_of_lookup_2 |].
    assert (h !! l = Some r) as Hcur.
    { destruct Hplaced as (_ & _ & Hin). rewrite (Hin _ _ _ Hl Hr).
      destruct (ps !! j); [| done]. by rewrite decide_False by lia. }
    assert (assert_ debug
              (ret ((0 <=? Z.of_nat j) && (Z.of_nat j <=? RotorBank.rotor_size b)))
              "" h = (Ok tt, h)) as Hassert.
    { assert ((0 <=? Z.of_nat j) && (Z.of_nat j <=? RotorBank.rotor_size b)
              = true) as Hb.
      { apply andb_true_intro. split; [apply Z.leb_le | apply Z.leb_le];
          fold ls in Hcount; unfold len in Hcount; lia. }
      unfold assert_, bind, ret. destruct debug; [by rewrite Hb | done]. }
    destruct (decide (j < length ps)%nat) as [Hlt | Hge].
    + destruct (lookup_lt_is_Some_2 ps j Hlt) as [p Hp].
      destruct (IH (S j) (<[l := put_position (p mod size r) r]> h))
        as (h' & Hrun & Hplaced'); [lia | lia | lia | by apply placed_step |].
      exists h'. split; [| done].
      erewrite bind_run.
      2:{ erewrite bind_run; [| exact Hassert].
          erewrite bind_run; [| by rewrite lift_run, (py_getitem_nat _ _ _ Hl)].
          erewrite bind_run; [| by rewrite lift_run, (py_getitem_nat _ _ _ Hp)].
          erewrite bind_run.
          2:{ unfold on_rotor. rewrite Hcur. by rewrite set_position_run. }
          reflexivity. }
      cbn beta iota.
      by replace (Z.of_nat j + 1) with (Z.of_nat (S j)) by lia.
    + exists h. rewrite decide_False by lia. split.
      * erewrite bind_fail; [reflexivity |].
        erewrite bind_run; [| exact Hassert].
        erewrite bind_run; [| by rewrite lift_run, (py_getitem_nat _ _ _ Hl)].
        erewrite bind_fail; [reflexivity |].
        rewrite lift_run, py_getitem_past_end; [done | unfold len; lia].
      * by replace (length ls `min` length ps)%nat with j by lia.
Qed.

Lemma placed_none : placed 0 h0.
Proof.
  split; [done |]. split; [done |]. intros i l r _ Hr. rewrite Hr.
  destruct (ps !! i); [| done]. by rewrite decide_False by lia.
Qed.

Lemma set_positions_run :
  ∃ h',
    RotorBank.set_positions debug b ps h0
    = (if decide (length ls <= length ps)%nat then Ok tt
       else Raise IndexError, h') ∧
    length h' = length h0 ∧
    (∀ l, l ∉ ls -> h' !! l = h0 !! l) ∧
    (∀ i l r, ls !! i = Some l -> h0 !! l = Some r ->
       h' !! l = Some (match ps !! i with
                       | Some p => put_position (p mod size r) r
                       | None => r
                       end)).
Proof.
  destruct (set_positions_loop (length ls) 0 h0) as (h' & Hrun & Hplaced);
    [lia | lia | lia | apply placed_none |].
  exists h'. split; [exact Hrun |].
  destruct Hplaced as (Hlen & Hout & Hin).
  split; [done |]. split; [done |].
  intros i l r Hl Hr. rewrite (Hin _ _ _ Hl Hr).
  destruct (ps !! i) as [p|] eqn:Hp; [| done].
  rewrite decide_True; [done |].
  apply lookup_lt_Some in Hl. apply lookup_lt_Some in Hp. lia.
Qed.
End BankPositions.

(** [set_positions] on a bank of distinct rotors (at most [rotor_size + 1]
    of them, which is what its assertion allows): rotor [i] receives
    [positions[i] mod N], entries past the rotor count are ignored, and a
    list shorter than the bank raises IndexError after the rotors it does
    cover have already been set.  No other object is touched. *)
Theorem bank_set_positions (debug : bool) (b : RotorBank.t) (ps : list Z)
  (h : heap) :
  NoDup (RotorBank.rotors b) ->
  (∀ l, l ∈ RotorBank.rotors b -> ∃ r, h !! l = Some r ∧ 0 < size r) ->
  len (RotorBank.rotors b) <= RotorBank.rotor_size b + 1 ->
  ∃ h',
    RotorBank.set_positions debug b ps h
    = (if decide (length (RotorBank.rotors b) <= length ps)%nat then Ok tt
       else Raise IndexError, h') ∧
    (∀ l, l ∉ RotorBank.rotors b -> h' !! l = h !! l) ∧
    (∀ i l r, RotorBank.rotors b !! i = Some l -> h !! l = Some r ->
       h' !! l = Some (match ps !! i with
                       | Some p => put_position (p mod size r) r
                       | None => r
                       end)).
Proof.
  intros Hnd Hrot Hcount.
  destruct (set_positions_run debug b ps h Hnd Hrot Hcount)
    as (h' & Hrun & _ & Hout & Hin).
  by exists h'.
Qed.

Lemma distinct_012 : NoDup [0; 1; 2]%nat.
Proof.
  repeat (constructor; [by rewrite ?elem_of_cons, elem_of_nil; lia |]).
  constructor.
Qed.

Lemma heap3_rotors (p0 p1 p2 : Z) (l : loc) :
  l ∈ [0; 1; 2]%nat -> ∃ r, heap3 p0 p1 p2 !! l = Some r ∧ 0 < size r.
Proof.
  intros Hl. rewrite !elem_of_cons, elem_of_nil in Hl.
  destruct Hl as [-> | [-> | [-> | []]]]; eexists; (split; [reflexivity |]);
    cbn; lia.
Qed.

(** Two positions for the three rotors of [bank3]: the call raises, the
    first two rotors are set. *)
Lemma bank_set_positions_witness :
  ∃ h',
    RotorBank.set_positions true bank3 [5; 6] (heap3 1 2 3)
    = (if decide (length (RotorBank.rotors bank3) <= length [5; 6])%nat
       then Ok tt else Raise IndexError, h') ∧
    (∀ l, l ∉ RotorBank.rotors bank3 -> h' !! l = heap3 1 2 3 !! l) ∧
    (∀ i l r, RotorBank.rotors bank3 !! i = Some l ->
       heap3 1 2 3 !! l = Some r ->
       h' !! l = Some (match [5; 6] !! i with
                       | Some p => put_position (p mod size r) r
                       | None => r
                       end)).
Proof.
  apply (bank_set_positions true bank3 [5; 6] (heap3 1 2 3) distinct_012
           (heap3_rotors 1 2 3)).
  unfold len. cbn. lia.
Defined.

(** [reset_positions] on a bank of distinct rotors whose [num_rotors] is
    its rotor count, as the constructor sets it: every rotor of the bank is
    at position 0 afterwards and nothing else has changed. *)
Theorem bank_reset_positions (debug : bool) (b : RotorBank.t) (h : heap) :
  NoDup (RotorBank.rotors b) ->
  (∀ l, l ∈ RotorBank.rotors b -> ∃ r, h !! l = Some r ∧ 0 < size r) ->
  len (RotorBank.rotors b) <= RotorBank.rotor_size b + 1 ->
  RotorBank.num_rotors b = len (RotorBank.rotors b) ->
  ∃ h',
    RotorBank.reset_positions debug b h = (Ok tt, h') ∧
    (∀ l, l ∉ RotorBank.rotors b -> h' !! l = h !! l) ∧
    (∀ l r, l ∈ RotorBank.rotors b -> h !! l = Some r ->
       h' !! l = Some (put_position 0 r)).
Proof.
  intros Hnd Hrot Hcount Hnum.
  set (zeros := map (λ _ : Z, 0) (py_range 0 (RotorBank.num_rotors b))).
  assert (length zeros = length (RotorBank.rotors b)) as Hlen.
  { unfold zeros. rewrite length_map, length_py_range, Hnum. unfold len. lia. }
  destruct (set_positions_run debug b zeros h Hnd Hrot Hcount)
    as (h' & Hrun & _ & Hout & Hin).
  rewrite decide_True in Hrun by lia.
  exists h'. split; [exact Hrun |]. split; [done |].
  intros l r Hl Hr. apply list_elem_of_lookup in Hl as [i Hi].
  rewrite (Hin i l r Hi Hr).
  assert (zeros !! i = Some 0) as ->.
  { apply lookup_lt_Some in Hi. rewrite <- Hlen in Hi.
    destruct (lookup_lt_is_Some_2 zeros i Hi) as [z Hz]. rewrite Hz.
    unfold zeros in Hz. rewrite list_lookup_fmap in Hz.
    destruct (py_range 0 (RotorBank.num_rotors b) !! i); by simplify_eq/=. }
  by rewrite Z.mod_0_l by (destruct (Hrot l) as (r' & Hr' & Hsz);
    [by eapply list_elem_of_lookup_2 | assert (r' = r) by congruence; subst; lia]).
Qed.

(** The three rotors of [bank3] from positions (1,2,3). *)
Lemma bank_reset_positions_witness :
  ∃ h',
    RotorBank.reset_positions true bank3 (heap3 1 2 3) = (Ok tt, h') ∧
    (∀ l, l ∉ RotorBank.rotors bank3 -> h' !! l = heap3 1 2 3 !! l) ∧
    (∀ l r, l ∈ RotorBank.rotors bank3 -> heap3 1 2 3 !! l = Some r ->
       h' !! l = Some (put_position 0 r)).
Proof.
  apply (bank_reset_positions true bank3 (heap3 1 2 3) distinct_012
           (heap3_rotors 1 2 3)).
  - unfold len. cbn. lia.
  - reflexivity.
Defined.

Lemma py_getitem_negative {A} (l : list A) (i : Z) :
  0 <= i < len l -> py_getitem l (i - len l) = py_getitem l i.
Proof.
  intros Hi. unfold py_getitem, py_index.
  destruct (Z.leb_spec 0 (i - len l)); [lia |].
  destruct (Z.leb_spec (- len l) (i - len l)); [| lia].
  destruct (Z.ltb_spec (i - len l) 0); [| lia].
  destruct (Z.leb_spec 0 i); [| lia].
  destruct (Z.ltb_spec i (len l)); [| lia].
  cbn. by replace (len l + (i - len l)) with i by lia.
Qed.

(** A single rotor of a bank, addressed by a Python subscript [i]:
    [set_rotor_position(i, p)] followed by [get_rotor_position(i)] returns
    [p mod N]; [step_rotor(i, d)] followed by [get_rotor_position(i)]
    returns [(position + d) mod N]; both touch that rotor only; and
    [get_rotor_position] itself changes nothing. *)
Theorem bank_single_rotor_round_trip (b : RotorBank.t) (h : heap) (i p d : Z)
  (l : loc) (r : rotor) :
  py_getitem (RotorBank.rotors b) i = Ok l -> h !! l = Some r -> 0 < size r ->
  RotorBank.get_rotor_position b i h = (Ok (position r), h) ∧
  (∃ h', RotorBank.set_rotor_position b i p h = (Ok tt, h') ∧
         RotorBank.get_rotor_position b i h' = (Ok (p mod size r), h') ∧
         h' = <[l := put_position (p mod size r) r]> h) ∧
  (∃ h', RotorBank.step_rotor b i d h = (Ok tt, h') ∧
         RotorBank.get_rotor_position b i h'
           = (Ok ((position r + d) mod size r), h') ∧
         h' = <[l := put_position ((position r + d) mod size r) r]> h).
Proof.
  intros Hget Hr Hn.
  assert (∀ h1 r1, h1 !! l = Some r1 ->
            RotorBank.get_rotor_position b i h1 = (Ok (position r1), h1))
    as Hread.
  { intros h1 r1 Hr1. unfold RotorBank.get_rotor_position.
    erewrite bind_run; [| by rewrite lift_run, Hget].
    by apply on_rotor_get_position. }
  assert (l < length h)%nat as Hl by by eapply lookup_lt_Some.
  split; [by apply Hread |]. split.
  - eexists. split; [| split; [| reflexivity]].
    + unfold RotorBank.set_rotor_position.
      erewrite bind_run; [| by rewrite lift_run, Hget].
      unfold on_rotor. rewrite Hr. by rewrite set_position_run.
    + by rewrite (Hread _ (put_position (p mod size r) r))
        by by apply list_lookup_insert_eq.
  - eexists. split; [| split; [| reflexivity]].
    + unfold RotorBank.step_rotor.
      erewrite bind_run; [| by rewrite lift_run, Hget].
      by apply on_rotor_step.
    + by rewrite (Hread _ (put_position ((position r + d) mod size r) r))
        by by apply list_lookup_insert_eq.
Qed.

(** Slot -1 of [bank3], its last rotor. *)
Lemma bank_single_rotor_round_trip_witness :
  RotorBank.get_rotor_position bank3 (-1) (heap3 1 2 3)
    = (Ok (position (put_position 3 (identity_rotor 4))), heap3 1 2 3) ∧
  (∃ h', RotorBank.set_rotor_position bank3 (-1) 9 (heap3 1 2 3) = (Ok tt, h') ∧
         RotorBank.get_rotor_position bank3 (-1) h'
           = (Ok (9 mod size (put_position 3 (identity_rotor 4))), h') ∧
         h' = <[2%nat := put_position
                           (9 mod size (put_position 3 (identity_rotor 4)))
                           (put_position 3 (identity_rotor 4))]> (heap3 1 2 3)) ∧
  (∃ h', RotorBank.step_rotor bank3 (-1) (-1) (heap3 1 2 3) = (Ok tt, h') ∧
         RotorBank.get_rotor_position bank3 (-1) h'
           = (Ok ((position (put_position 3 (identity_rotor 4)) + -1)
                  mod size (put_position 3 (identity_rotor 4))), h') ∧
         h' = <[2%nat := put_position
                           ((position (put_position 3 (identity_rotor 4)) + -1)
                            mod size (put_position 3 (identity_rotor 4)))
                           (put_position 3 (identity_rotor 4))]> (heap3 1 2 3)).
Proof.
  apply (bank_single_rotor_round_trip bank3 (heap3 1 2 3) (-1) 9 (-1) 2%nat
           (put_position 3 (identity_rotor 4))); [reflexivity | reflexivity |].
  cbn. lia.
Defined.

(** Subscripts are Python's: an index outside [-k, k) raises IndexError in
    the three single-rotor methods and leaves the store alone, and [i - k]
    addresses the rotor that [i] addresses. *)
Theorem bank_single_rotor_subscripts (b : RotorBank.t) (h : heap) (i p : Z) :
  (¬ (- len (RotorBank.rotors b) <= i < len (RotorBank.rotors b)) ->
     RotorBank.get_rotor_position b i h = (Raise IndexError, h) ∧
     RotorBank.set_rotor_position b i p h = (Raise IndexError, h) ∧
     RotorBank.step_rotor b i p h = (Raise IndexError, h)) ∧
  (0 <= i < len (RotorBank.rotors b) ->
     RotorBank.get_rotor_position b (i - len (RotorBank.rotors b)) h
       = RotorBank.get_rotor_position b i h ∧
     RotorBank.set_rotor_position b (i - len (RotorBank.rotors b)) p h
       = RotorBank.set_rotor_position b i p h ∧
     RotorBank.step_rotor b (i - len (RotorBank.rotors b)) p h
       = RotorBank.step_rotor b i p h).
Proof.
  split.
  - intros Hi.
    assert (py_getitem (RotorBank.rotors b) i = Raise IndexError) as Hget.
    { unfold py_getitem. by rewrite py_index_invalid. }
    unfold RotorBank.get_rotor_position, RotorBank.set_rotor_position,
      RotorBank.step_rotor, bind, lift. by rewrite Hget.
  - intros Hi.
    unfold RotorBank.get_rotor_position, RotorBank.set_rotor_position,
      RotorBank.step_rotor, bind, lift.
    by rewrite py_getitem_negative.
Qed.

(** Out-of-range and negative subscripts on [bank3]. *)
Lemma bank_single_rotor_subscripts_witness :
  (RotorBank.get_rotor_position bank3 3 (heap3 1 2 3)
     = (Raise IndexError, heap3 1 2 3) ∧
   RotorBank.set_rotor_position bank3 3 0 (heap3 1 2 3)
     = (Raise IndexError, heap3 1 2 3) ∧
   RotorBank.step_rotor bank3 3 0 (heap3 1 2 3)
     = (Raise IndexError, heap3 1 2 3)) ∧
  RotorBank.get_rotor_position bank3 (1 - len (RotorBank.rotors bank3))
    (heap3 1 2 3)
  = RotorBank.get_rotor_position bank3 1 (heap3 1 2 3).
Proof.
  split.
  - apply (proj1 (bank_single_rotor_subscripts bank3 (heap3 1 2 3) 3 0)).
    unfold len. cbn. lia.
  - apply (proj2 (bank_single_rotor_subscripts bank3 (heap3 1 2 3) 1 0)).
    unfold len. cbn. lia.
Defined.

(** The wirings [-1; 0] (accepted) and [2; 0] (rejected). *)
Lemma unchecked_construction_accepts_valid_subscripts_witness :
  (∃ r, rotor_new false [-1; 0] = Ok r ∧ size r = len [-1; 0] ∧
        wiring r = [-1; 0] ∧
        length (reverse_wiring r) = length [-1; 0] ∧
        position r = 0 ∧ reversed r = false) ∧
  rotor_new false [2; 0] = Raise IndexError.
Proof.
  split.
  - apply (proj1 (unchecked_construction_accepts_valid_subscripts [-1; 0])).
    repeat constructor; unfold len; cbn; lia.
  - apply (proj2 (unchecked_construction_accepts_valid_subscripts [2; 0])).
    intros Hall. inversion Hall as [|? ? Hj _]. unfold len in Hj. cbn in Hj.
    lia.
Defined.

(** ** RotorBank: the passes and [get_positions] *)

Lemma py_range_down_cons (a b : Z) :
  b < a -> py_range_down a b = a :: py_range_down (a - 1) b.
Proof.
  intros Hab. unfold py_range_down.
  replace (Z.to_nat (a - b)) with (S (Z.to_nat (a - 1 - b))) by lia.
  cbn [seq map]. f_equal; [lia |].
  rewrite <- seq_shift, map_map. apply map_ext. intros k. lia.
Qed.

(** [get_positions] never returns the positions of a bank that has a
    rotor: it assigns by index into an empty list and raises IndexError on
    the first rotor; only for a rotor count of zero or less does it return
    (the empty list).  The store is left as it was. *)
Theorem bank_get_positions_raises (b : RotorBank.t) (h : heap) :
  (RotorBank.num_rotors b <= 0 -> RotorBank.get_positions b h = (Ok [], h)) ∧
  (0 < RotorBank.num_rotors b ->
   ∀ l r, RotorBank.rotors b !! 0%nat = Some l -> h !! l = Some r ->
     RotorBank.get_positions b h = (Raise IndexError, h)) ∧
  (0 < RotorBank.num_rotors b -> RotorBank.rotors b = [] ->
     RotorBank.get_positions b h = (Raise IndexError, h)).
Proof.
  unfold RotorBank.get_positions. split; [| split].
  - intros Hn. by rewrite py_range_nil.
  - intros Hn l r Hl Hr. rewrite py_range_cons by done. cbn [for_fold].
    assert (py_getitem (RotorBank.rotors b) 0 = Ok l) as Hg
      by apply (py_getitem_nat _ 0%nat _ Hl).
    erewrite bind_fail; [reflexivity |].
    erewrite bind_run; [| by rewrite lift_run, Hg].
    erewrite bind_run; [| by apply on_rotor_get_position].
    reflexivity.
  - intros Hn Hnil. rewrite py_range_cons by done. cbn [for_fold].
    rewrite Hnil. reflexivity.
Qed.

(** [get_positions] on [bank3]. *)
Lemma bank_get_positions_raises_witness :
  RotorBank.get_positions bank3 (heap3 1 2 3) = (Raise IndexError, heap3 1 2 3).
Proof.
  apply (proj1 (proj2 (bank_get_positions_raises bank3 (heap3 1 2 3)))
           ltac:(cbn; lia) 0%nat (put_position 1 (identity_rotor 4)));
    reflexivity.
Defined.

(** On a bank built by the constructor (a first rotor, [num_rotors] the
    rotor count) none of the four passes returns: [encrypt],
    [decrypt] and [encrypt_with_intermediates] raise AttributeError on the
    first rotor they call, [decrypt_with_intermediates] raises IndexError
    on [self.rotors[self.num_rotors]]; the store is left as it was. *)
Theorem bank_passes_never_return (debug : bool) (l : loc) (ls : list loc)
  (sz x : Z) (h : heap) :
  let b := RotorBank.mk (l :: ls) (len (l :: ls)) sz in
  RotorBank.encrypt debug b x h
    = (Raise (AttributeError "rotor" "encrypt"), h) ∧
  RotorBank.decrypt debug b x h
    = (Raise (AttributeError "rotor" "decrypt"), h) ∧
  RotorBank.encrypt_with_intermediates debug b x h
    = (Raise (AttributeError "rotor" "encrypt"), h) ∧
  RotorBank.decrypt_with_intermediates debug b x h
    = (Raise IndexError, h).
Proof.
  intros b.
  assert (0 < len (l :: ls)) as Hpos by (unfold len; cbn; lia).
  split; [reflexivity |]. split; [| split].
  - unfold RotorBank.decrypt. cbn [RotorBank.num_rotors RotorBank.rotors b].
    rewrite py_range_down_cons by lia. cbn [for_fold].
    destruct (py_getitem_total (l :: ls) (len (l :: ls) - 1)) as [l' Hl'];
      [lia |].
    erewrite bind_fail; [reflexivity |].
    erewrite bind_run; [| by rewrite lift_run, Hl'].
    reflexivity.
  - unfold RotorBank.encrypt_with_intermediates.
    cbn [RotorBank.num_rotors RotorBank.rotors b].
    rewrite (py_range_cons 0 (len (l :: ls) + 1)) by lia.
    rewrite (py_range_cons 0 (len (l :: ls))) by lia.
    reflexivity.
  - unfold RotorBank.decrypt_with_intermediates.
    cbn [RotorBank.num_rotors RotorBank.rotors b].
    rewrite (py_range_cons 0 (len (l :: ls) + 1)) by lia.
    rewrite (py_range_cons 0 (len (l :: ls))) by lia.
    erewrite bind_run; [| reflexivity].
    cbn [for_fold].
    erewrite bind_fail; [reflexivity |].
    erewrite bind_fail; [reflexivity |].
    rewrite lift_run, py_getitem_past_end; [done | lia].
Qed.

(** ** SIGABAMachine: positions *)

(** Setting every rotor of a list to position 0, whether or not a rotor
    occurs in it more than once. *)
Lemma zero_positions_loop (ls : list loc) :
  ∀ h : heap,
    (∀ l, l ∈ ls -> ∃ r, h !! l = Some r ∧ 0 < size r) ->
    ∃ h',
      for_in ls (fun r => on_rotor r (set_position 0) >> ret Next) h
        = (Ok tt, h') ∧
      ∀ l, h' !! l = (λ r, if decide (l ∈ ls) then put_position 0 r else r)
                       <$> h !! l.
Proof.
  induction ls as [|l0 ls IH]; intros h Hrot.
  - exists h. split; [done |]. intros l.
    destruct (h !! l) as [r|]; cbn; [| done].
    rewrite decide_False; [done | apply not_elem_of_nil].
  - destruct (Hrot l0) as (r0 & Hr0 & Hsz0); [by left |].
    set (h1 := <[l0 := put_position 0 r0]> h).
    assert (∀ l, h1 !! l = (λ r, if decide (l = l0) then put_position 0 r else r)
                             <$> h !! l) as Hh1.
    { intros l. unfold h1. destruct (decide (l = l0)) as [-> | Hne].
      - rewrite list_lookup_insert_eq by by eapply lookup_lt_Some.
        by rewrite Hr0.
      - rewrite list_lookup_insert_ne by done. by destruct (h !! l). }
    destruct (IH h1) as (h' & Hrun & Hh').
    { intros l Hl. destruct (Hrot l) as (r & Hr & Hsz); [by right |].
      rewrite Hh1, Hr. cbn. destruct (decide (l = l0)); eexists; eauto. }
    exists h'. split.
    + cbn [for_in].
      erewrite bind_run.
      2:{ erewrite bind_run; [reflexivity |].
          unfold on_rotor. rewrite Hr0, set_position_run by done.
          rewrite Z.mod_0_l by lia. reflexivity. }
      exact Hrun.
    + intros l. rewrite Hh', Hh1. destruct (h !! l) as [r|]; cbn; [| done].
      f_equal.
      destruct (decide (l = l0)) as [-> | Hne].
      * rewrite (decide_True (P := l0 ∈ l0 :: ls)) by by left.
        by destruct (decide (l0 ∈ ls)).
      * destruct (decide (l ∈ ls)) as [Hin | Hout].
        -- by rewrite decide_True by by right.
        -- rewrite decide_False; [done |].
           rewrite elem_of_cons. by intros [? | ?].
Qed.

(** [reset_rotors] puts every cipher rotor and every control rotor at
    position 0 and changes nothing else, also when a rotor sits in more
    than one slot. *)
Theorem sigaba_reset_rotors (m : SIGABAMachine.t) (h : heap) :
  (∀ l, l ∈ (SIGABAMachine.cipher_rotors m ++ SIGABAMachine.control_rotors m)%list ->
        ∃ r, h !! l = Some r ∧ 0 < size r) ->
  ∃ h',
    SIGABAMachine.reset_rotors m h = (Ok tt, h') ∧
    ∀ l, h' !! l
         = (λ r, if decide (l ∈ (SIGABAMachine.cipher_rotors m
                                   ++ SIGABAMachine.control_rotors m)%list)
                 then put_position 0 r else r) <$> h !! l.
Proof.
  intros Hrot.
  destruct (zero_positions_loop (SIGABAMachine.cipher_rotors m) h)
    as (h1 & Hrun1 & Hh1).
  { intros l Hl. apply Hrot. apply elem_of_app. by left. }
  destruct (zero_positions_loop (SIGABAMachine.control_rotors m) h1)
    as (h2 & Hrun2 & Hh2).
  { intros l Hl. destruct (Hrot l) as (r & Hr & Hsz);
      [apply elem_of_app; by right |].
    rewrite Hh1, Hr. cbn.
    destruct (decide (l ∈ SIGABAMachine.cipher_rotors m)); eexists; eauto. }
  exists h2. split.
  - unfold SIGABAMachine.reset_rotors.
    erewrite bind_run.
    2:{ erewrite bind_run; [| reflexivity]. exact Hrun1. }
    erewrite bind_run; [| reflexivity]. exact Hrun2.
  - intros l. rewrite Hh2, Hh1. destruct (h !! l) as [r|]; cbn; [| done].
    f_equal.
    destruct (decide (l ∈ SIGABAMachine.cipher_rotors m)) as [Hc | Hc];
      destruct (decide (l ∈ SIGABAMachine.control_rotors m)) as [Hk | Hk].
    + by rewrite decide_True by (apply elem_of_app; by left).
    + by rewrite decide_True by (apply elem_of_app; by left).
    + by rewrite decide_True by (apply elem_of_app; by right).
    + rewrite decide_False; [done |].
      rewrite elem_of_app. by intros [? | ?].
Qed.

Lemma sigaba_heap_used_rotors (l : loc) :
  l ∈ (SIGABAMachine.cipher_rotors sigaba_machine
       ++ SIGABAMachine.control_rotors sigaba_machine)%list ->
  ∃ r, sigaba_heap_used !! l = Some r ∧ 0 < size r.
Proof.
  intros Hl. cbn in Hl. rewrite !elem_of_cons, elem_of_nil in Hl.
  destruct Hl as [-> | [-> | [-> | [-> | [-> | [-> | [-> | []]]]]]]];
    eexists; (split; [reflexivity |]); cbn; lia.
Qed.

(** [reset_rotors] on the sample machine with its rotors at the positions
    1 to 7: the seven rotors go to position 0 and the eighth object of the
    store stays at position 8. *)
Lemma sigaba_reset_rotors_witness :
  SIGABAMachine.reset_rotors sigaba_machine sigaba_heap_used
    = (Ok tt, (sigaba_heap ++ [put_position 8 (identity_rotor 10)])%list) ∧
  ∃ h',
    SIGABAMachine.reset_rotors sigaba_machine sigaba_heap_used = (Ok tt, h') ∧
    ∀ l, h' !! l
         = (λ r, if decide (l ∈ (SIGABAMachine.cipher_rotors sigaba_machine
                                   ++ SIGABAMachine.control_rotors
                                        sigaba_machine)%list)
                 then put_position 0 r else r) <$> sigaba_heap_used !! l.
Proof.
  split; [by vm_compute |].
  apply (sigaba_reset_rotors sigaba_machine sigaba_heap_used
           sigaba_heap_used_rotors).
Defined.

(** The bulk position setters of a machine with rotors never set a
    position: after the length assertion the loop subscripts a bare name,
    so the call raises AssertionError (wrong length, under the assertions)
    or NameError and the store is left as it was. *)
Theorem sigaba_bulk_setters_raise (debug : bool) (m : SIGABAMachine.t)
  (cs ks : list Z) (h : heap) :
  0 < SIGABAMachine.num_cipher_rotors m ->
  0 < SIGABAMachine.num_control_rotors m ->
  SIGABAMachine.set_cipher_rotor_positions debug m cs h
    = (Raise (if debug && negb (len cs =? SIGABAMachine.num_cipher_rotors m)
              then AssertionError "" else NameError "cipher_rotors"), h) ∧
  SIGABAMachine.set_control_rotor_positions debug m ks h
    = (Raise (if debug && negb (len ks =? SIGABAMachine.num_control_rotors m)
              then AssertionError "" else NameError "control_rotors"), h) ∧
  SIGABAMachine.set_rotor_positions debug m cs ks h
    = (Raise (if debug && negb (len cs =? SIGABAMachine.num_cipher_rotors m)
              then AssertionError "" else NameError "cipher_rotors"), h).
Proof.
  intros Hc Hk.
  assert (SIGABAMachine.set_cipher_rotor_positions debug m cs h
    = (Raise (if debug && negb (len cs =? SIGABAMachine.num_cipher_rotors m)
              then AssertionError "" else NameError "cipher_rotors"), h)) as H1.
  { unfold SIGABAMachine.set_cipher_rotor_positions, assert_.
    destruct debug; cbn.
    - unfold bind at 1 2. cbn.
      destruct (len cs =? SIGABAMachine.num_cipher_rotors m); cbn; [| done].
      by rewrite py_range_cons.
    - unfold bind at 1 2. cbn. by rewrite py_range_cons. }
  split; [exact H1 |]. split.
  - unfold SIGABAMachine.set_control_rotor_positions, assert_.
    destruct debug; cbn.
    + unfold bind at 1 2. cbn.
      destruct (len ks =? SIGABAMachine.num_control_rotors m); cbn; [| done].
      by rewrite py_range_cons.
    + unfold bind at 1 2. cbn. by rewrite py_range_cons.
  - unfold SIGABAMachine.set_rotor_positions.
    erewrite bind_fail; [reflexivity | exact H1].
Qed.

(** The sample machine with position lists of the right lengths. *)
Lemma sigaba_bulk_setters_raise_witness :
  SIGABAMachine.set_cipher_rotor_positions true sigaba_machine [1; 2; 3] sigaba_heap
    = (Raise (NameError "cipher_rotors"), sigaba_heap) ∧
  SIGABAMachine.set_control_rotor_positions true sigaba_machine [1; 2; 3; 4]
    sigaba_heap
    = (Raise (NameError "control_rotors"), sigaba_heap) ∧
  SIGABAMachine.set_rotor_positions true sigaba_machine [1; 2; 3] [1; 2; 3; 4]
    sigaba_heap
    = (Raise (NameError "cipher_rotors"), sigaba_heap).
Proof.
  apply (sigaba_bulk_setters_raise true sigaba_machine [1; 2; 3] [1; 2; 3; 4]
           sigaba_heap); cbn; lia.
Defined.

(** [set_cipher_rotor_position] and [set_control_rotor_position] set the
    rotor their subscript addresses to [p mod N] and nothing else; a
    subscript outside the bank raises IndexError. *)
Theorem sigaba_single_rotor_setters (m : SIGABAMachine.t) (h : heap) (i p : Z) :
  (∀ l r, py_getitem (SIGABAMachine.cipher_rotors m) i = Ok l ->
          h !! l = Some r -> 0 < size r ->
     SIGABAMachine.set_cipher_rotor_position m i p h
     = (Ok tt, <[l := put_position (p mod size r) r]> h)) ∧
  (∀ l r, py_getitem (SIGABAMachine.control_rotors m) i = Ok l ->
          h !! l = Some r -> 0 < size r ->
     SIGABAMachine.set_control_rotor_position m i p h
     = (Ok tt, <[l := put_position (p mod size r) r]> h)) ∧
  (¬ (- len (SIGABAMachine.cipher_rotors m) <= i
      < len (SIGABAMachine.cipher_rotors m)) ->
     SIGABAMachine.set_cipher_rotor_position m i p h = (Raise IndexError, h)) ∧
  (¬ (- len (SIGABAMachine.control_rotors m) <= i
      < len (SIGABAMachine.control_rotors m)) ->
     SIGABAMachine.set_control_rotor_position m i p h = (Raise IndexError, h)).
Proof.
  unfold SIGABAMachine.set_cipher_rotor_position,
    SIGABAMachine.set_control_rotor_position.
  repeat split.
  - intros l r Hget Hr Hn.
    erewrite bind_run; [| reflexivity].
    erewrite bind_run; [| by rewrite lift_run, Hget].
    unfold on_rotor. rewrite Hr. by rewrite set_position_run.
  - intros l r Hget Hr Hn.
    erewrite bind_run; [| reflexivity].
    erewrite bind_run; [| by rewrite lift_run, Hget].
    unfold on_rotor. rewrite Hr. by rewrite set_position_run.
  - intros Hi. erewrite bind_run; [| reflexivity].
    erewrite bind_fail; [reflexivity |].
    unfold py_getitem. by rewrite lift_run, py_index_invalid.
  - intros Hi. erewrite bind_run; [| reflexivity].
    erewrite bind_fail; [reflexivity |].
    unfold py_getitem. by rewrite lift_run, py_index_invalid.
Qed.

(** The last control rotor of the sample machine, and a cipher subscript
    past the end. *)
Lemma sigaba_single_rotor_setters_witness :
  SIGABAMachine.set_control_rotor_position sigaba_machine (-1) 13 sigaba_heap
    = (Ok tt, <[6%nat := put_position (13 mod size (identity_rotor 10))
                           (identity_rotor 10)]> sigaba_heap) ∧
  SIGABAMachine.set_cipher_rotor_position sigaba_machine 3 0 sigaba_heap
    = (Raise IndexError, sigaba_heap).
Proof.
  split.
  - apply (proj1 (proj2 (sigaba_single_rotor_setters sigaba_machine
                           sigaba_heap (-1) 13)));
      [reflexivity | reflexivity | cbn; lia].
  - apply (proj1 (proj2 (proj2 (sigaba_single_rotor_setters sigaba_machine
                                  sigaba_heap 3 0)))).
    unfold len. cbn. lia.
Defined.

(** ** SIGABAMachine: construction and the passes *)

Lemma bind_always_raises {A B} (m : M heap A) (k : A -> M heap B) :
  frame m -> (∀ a s, ∃ e, k a s = (Raise e, s)) ->
  ∀ s, ∃ e, bind m k s = (Raise e, s).
Proof.
  intros Hm Hk s. unfold bind. specialize (Hm s).
  destruct (m s) as [[a|e] s']; cbn in Hm; subst s'; [apply Hk | eauto].
Qed.

Lemma frame_sigaba_setters (debug : bool) (rs : list loc) (im : list Z)
  (self : SIGABAMachine.t) :
  frame (SIGABAMachine.set_cipher_rotors debug rs self) ∧
  frame (SIGABAMachine.set_control_rotors debug rs self) ∧
  frame (SIGABAMachine.set_index_map debug im self).
Proof.
  unfold SIGABAMachine.set_cipher_rotors, SIGABAMachine.set_control_rotors,
    SIGABAMachine.set_index_map, get_size.
  repeat split; frame_auto.
Qed.

(** Under the assertions a SIGABAMachine with a control input cannot be
    built: whatever the earlier setters do, [set_control_inputs] subscripts
    the builtin [input] and raises; the default control inputs are of this
    kind.  The store is left as it was. *)
Theorem sigaba_checked_construction_fails (cipher control : list loc)
  (im : list Z) (c : Z) (cs : list Z) (position : Z) (order : list Z)
  (h : heap) :
  ∃ e, SIGABAMachine.new true cipher control im (c :: cs) position order h
       = (Raise e, h).
Proof.
  unfold SIGABAMachine.new.
  apply bind_always_raises;
    [apply (frame_sigaba_setters true cipher im SIGABAMachine.blank) |].
  intros m1 s1. apply bind_always_raises;
    [apply (frame_sigaba_setters true control im m1) |].
  intros m2 s2. apply bind_always_raises;
    [apply (frame_sigaba_setters true control im m2) |].
  intros m3 s3. eexists. reflexivity.
Qed.

(** With the assertions compiled out construction needs a first cipher
    rotor and a first control rotor and checks nothing else: the sizes are
    taken from those two rotors, and the index map, the control inputs, the
    step position and the step order are stored as given. *)
Theorem sigaba_unchecked_construction (cipher control : list loc)
  (im cs : list Z) (position : Z) (order : list Z) (h : heap)
  (lc lk : loc) (rc rk : rotor) :
  cipher !! 0%nat = Some lc -> h !! lc = Some rc ->
  control !! 0%nat = Some lk -> h !! lk = Some rk ->
  SIGABAMachine.new false cipher control im cs position order h
  = (Ok (SIGABAMachine.mk cipher (len cipher) (size rc)
           control (len control) (size rk) im cs position order), h) ∧
  SIGABAMachine.new false [] control im cs position order h
  = (Raise IndexError, h) ∧
  SIGABAMachine.new false cipher [] im cs position order h
  = (Raise IndexError, h).
Proof.
  intros Hlc Hrc Hlk Hrk.
  assert (py_getitem cipher 0 = Ok lc) as Hgc
    by apply (py_getitem_nat _ 0%nat _ Hlc).
  assert (py_getitem control 0 = Ok lk) as Hgk
    by apply (py_getitem_nat _ 0%nat _ Hlk).
  assert (on_rotor lc get_size h = (Ok (size rc), h)) as Hsc.
  { unfold on_rotor, get_size, gets. rewrite Hrc. by rewrite list_insert_id. }
  assert (on_rotor lk get_size h = (Ok (size rk), h)) as Hsk.
  { unfold on_rotor, get_size, gets. rewrite Hrk. by rewrite list_insert_id. }
  assert (∀ self, SIGABAMachine.set_cipher_rotors false cipher self h
            = (Ok (SIGABAMachine.mk cipher (len cipher) (size rc)
                     (SIGABAMachine.control_rotors self)
                     (SIGABAMachine.num_control_rotors self)
                     (SIGABAMachine.control_rotor_size self)
                     (SIGABAMachine.index_map self)
                     (SIGABAMachine.control_inputs self)
                     (SIGABAMachine.control_step_position self)
                     (SIGABAMachine.control_step_order self)), h)) as Hc.
  { intros self. unfold SIGABAMachine.set_cipher_rotors.
    erewrite bind_run; [| by rewrite lift_run, Hgc].
    erewrite bind_run; [| exact Hsc]. reflexivity. }
  split; [| split].
  - unfold SIGABAMachine.new.
    erewrite bind_run; [| apply Hc].
    erewrite bind_run.
    2:{ unfold SIGABAMachine.set_control_rotors.
        erewrite bind_run; [| by rewrite lift_run, Hgk].
        erewrite bind_run; [| exact Hsk]. reflexivity. }
    reflexivity.
  - reflexivity.
  - unfold SIGABAMachine.new.
    erewrite bind_run; [| apply Hc]. reflexivity.
Qed.

(** The sample machine, built on the sample store. *)
Lemma sigaba_unchecked_construction_witness :
  SIGABAMachine.new false [0; 1; 2]%nat [3; 4; 5; 6]%nat sigaba_index_map
    [5; 6; 7; 8] 0 [2; 3; 1] sigaba_heap
  = (Ok (SIGABAMachine.mk [0; 1; 2]%nat (len [0; 1; 2]%nat)
           (size (identity_rotor 10)) [3; 4; 5; 6]%nat (len [3; 4; 5; 6]%nat)
           (size (identity_rotor 10)) sigaba_index_map [5; 6; 7; 8] 0
           [2; 3; 1]), sigaba_heap) ∧
  SIGABAMachine.new false [] [3; 4; 5; 6]%nat sigaba_index_map
    [5; 6; 7; 8] 0 [2; 3; 1] sigaba_heap
  = (Raise IndexError, sigaba_heap) ∧
  SIGABAMachine.new false [0; 1; 2]%nat [] sigaba_index_map
    [5; 6; 7; 8] 0 [2; 3; 1] sigaba_heap
  = (Raise IndexError, sigaba_heap).
Proof.
  apply (sigaba_unchecked_construction [0; 1; 2]%nat [3; 4; 5; 6]%nat
           sigaba_index_map [5; 6; 7; 8] 0 [2; 3; 1] sigaba_heap
           0%nat 3%nat (identity_rotor 10) (identity_rotor 10));
    reflexivity.
Defined.

(** On a machine built by the constructor (a first cipher rotor and a first
    control rotor, the counts those of the lists) none of the four passes
    through a bank returns a symbol: [encipher] raises NameError,
    [decipher] AttributeError on [self.num_rotors], [control] and
    [control_back] AttributeError on the rotor method; the store is left
    as it was. *)
Theorem sigaba_passes_never_return (debug : bool) (lc lk : loc)
  (cipher control : list loc) (csz ksz : Z) (im cs : list Z) (position : Z)
  (order : list Z) (x : Z) (h : heap) :
  let m := SIGABAMachine.mk (lc :: cipher) (len (lc :: cipher)) csz
             (lk :: control) (len (lk :: control)) ksz im cs position order in
  SIGABAMachine.encipher debug m x h = (Raise (NameError "cipher_rotors"), h) ∧
  SIGABAMachine.decipher debug m x h
    = (Raise (AttributeError "SIGABAMachine" "num_rotors"), h) ∧
  SIGABAMachine.control debug m x h
    = (Raise (AttributeError "rotor" "encrypt"), h) ∧
  SIGABAMachine.control_back debug m x h
    = (Raise (AttributeError "rotor" "decrypt"), h).
Proof.
  intros m.
  assert (0 < len (lc :: cipher)) as Hc by (unfold len; cbn; lia).
  assert (0 < len (lk :: control)) as Hk by (unfold len; cbn; lia).
  split; [reflexivity |]. split; [| split; [reflexivity |]].
  - unfold SIGABAMachine.decipher.
    erewrite bind_run; [| reflexivity].
    cbn [SIGABAMachine.num_cipher_rotors m].
    rewrite py_range_cons by done. reflexivity.
  - unfold SIGABAMachine.control_back.
    erewrite bind_run; [| reflexivity].
    cbn [SIGABAMachine.num_control_rotors m].
    rewrite py_range_cons by done. cbn [for_fold].
    destruct (py_getitem_total (lk :: control) (len (lk :: control) - 1 - 0))
      as [l' Hl']; [lia |].
    erewrite bind_fail; [reflexivity |].
    rewrite (bind_run _ _ h h (lk :: control)) by reflexivity.
    rewrite (bind_run _ _ h h (len (lk :: control))) by reflexivity.
    erewrite bind_run; [| by rewrite lift_run, Hl'].
    reflexivity.
Qed.

(** ** EnigmaMachine: construction, decrypt without a reflector, overrun *)

(** An EnigmaMachine without an explicit steckerboard cannot be built:
    whatever the rotor list is, construction raises and leaves the store as
    it was; with a rotor list whose first rotor exists the exception is the
    TypeError of calling the module [rotor]. *)
Theorem enigma_default_steckerboard_fails (rs : list loc)
  (sp : option (list Z)) (refl : option loc) (h : heap) :
  (∃ e, EnigmaMachine.new rs sp refl None h = (Raise e, h)) ∧
  (∀ l r, rs !! 0%nat = Some l -> h !! l = Some r ->
     EnigmaMachine.new rs sp refl None h
     = (Raise (TypeError "'module' object is not callable"), h)).
Proof.
  split.
  - unfold EnigmaMachine.new. apply bind_always_raises.
    + unfold EnigmaMachine.set_rotors, get_size. frame_auto.
    + intros m1 s1. eexists. reflexivity.
  - intros l r Hl Hr.
    assert (py_getitem rs 0 = Ok l) as Hg by apply (py_getitem_nat _ 0%nat _ Hl).
    unfold EnigmaMachine.new.
    erewrite bind_run.
    2:{ unfold EnigmaMachine.set_rotors.
        erewrite bind_run; [| by rewrite lift_run, Hg].
        erewrite bind_run.
        2:{ unfold on_rotor, get_size, gets. rewrite Hr.
            rewrite list_insert_id by done. reflexivity. }
        reflexivity. }
    reflexivity.
Qed.

(** With a steckerboard, construction needs only a first rotor: the rotor
    size is that rotor's, the notch list is stored as given (by default a 1
    for every rotor), and neither the sizes of the other rotors nor the
    length of the notch list is checked.  An empty rotor list raises
    IndexError. *)
Theorem enigma_construction (rs : list loc) (sp : option (list Z))
  (refl : option loc) (s : loc) (h : heap) (l : loc) (r : rotor) :
  rs !! 0%nat = Some l -> h !! l = Some r ->
  EnigmaMachine.new rs sp refl (Some s) h
  = (Ok (EnigmaMachine.mk rs (len rs) (size r) refl s
           (match sp with
            | Some notches => notches
            | None => replicate (length rs) 1
            end)), h) ∧
  EnigmaMachine.new [] sp refl (Some s) h = (Raise IndexError, h).
Proof.
  intros Hl Hr. split; [| reflexivity].
  assert (py_getitem rs 0 = Ok l) as Hg by apply (py_getitem_nat _ 0%nat _ Hl).
  unfold EnigmaMachine.new.
  erewrite bind_run.
  2:{ unfold EnigmaMachine.set_rotors.
      erewrite bind_run; [| by rewrite lift_run, Hg].
      erewrite bind_run.
      2:{ unfold on_rotor, get_size, gets. rewrite Hr.
          rewrite list_insert_id by done. reflexivity. }
      reflexivity. }
  unfold EnigmaMachine.set_reflector, EnigmaMachine.set_steckerboard,
    EnigmaMachine.set_stepping_positions, bind, ret. cbn.
  destruct sp as [notches |]; [reflexivity |].
  do 3 f_equal. unfold len.
  rewrite (default_notches _ (length rs)); [done |].
  rewrite length_map, length_py_range. lia.
Qed.

(** Three rotors of the sample store with two notches only, and the fourth
    rotor as steckerboard. *)
Lemma enigma_construction_witness :
  EnigmaMachine.new [0; 1; 2]%nat (Some [1; 2]) None (Some 3%nat) (heap3 0 0 0)
  = (Ok (EnigmaMachine.mk [0; 1; 2]%nat (len [0; 1; 2]%nat)
           (size (put_position 0 (identity_rotor 4))) None 3%nat [1; 2]),
     heap3 0 0 0) ∧
  EnigmaMachine.new [] (Some [1; 2]) None (Some 3%nat) (heap3 0 0 0)
  = (Raise IndexError, heap3 0 0 0).
Proof.
  apply (enigma_construction [0; 1; 2]%nat (Some [1; 2]) None 3%nat
           (heap3 0 0 0) 0%nat (put_position 0 (identity_rotor 4)));
    reflexivity.
Defined.

Lemma py_range_down_nil (a b : Z) : a <= b -> py_range_down a b = [].
Proof.
  intros Hab. unfold py_range_down.
  by replace (Z.to_nat (a - b)) with 0%nat by lia.
Qed.

(** Without a reflector [decrypt] never returns a plaintext and never
    steps a rotor: on a machine with rotors (the count that of the list) it
    raises AttributeError at the last rotor's [decrypt], and with no rotor
    to pass it raises NameError on the bare name [steckerboard]. *)
Theorem enigma_decrypt_without_reflector (debug : bool) (rs : list loc)
  (n sz : Z) (s : loc) (sp : list Z) (y : Z) (h : heap) :
  let m := EnigmaMachine.mk rs n sz None s sp in
  (∃ e, EnigmaMachine.decrypt debug m y h = (Raise e, h)) ∧
  (0 < n -> n = len rs ->
   EnigmaMachine.decrypt debug m y h
   = (Raise (AttributeError "rotor" "decrypt"), h)) ∧
  (n <= 0 ->
   EnigmaMachine.decrypt debug m y h = (Raise (NameError "steckerboard"), h)).
Proof.
  intros m.
  assert (n <= 0 ->
          EnigmaMachine.decrypt debug m y h
          = (Raise (NameError "steckerboard"), h)) as Hnone.
  { intros Hn. subst m. unfold EnigmaMachine.decrypt.
    cbn [EnigmaMachine.reflector EnigmaMachine.num_rotors EnigmaMachine.rotors].
    rewrite py_range_down_nil by lia. reflexivity. }
  assert (0 < n ->
          EnigmaMachine.decrypt debug m y h
          = (match py_getitem rs (n - 1) with
             | Ok _ => Raise (AttributeError "rotor" "decrypt")
             | Raise e => Raise e
             end, h)) as Hsome.
  { intros Hn. subst m. unfold EnigmaMachine.decrypt.
    cbn [EnigmaMachine.reflector EnigmaMachine.num_rotors EnigmaMachine.rotors].
    rewrite py_range_down_cons by lia. cbn [for_fold].
    unfold bind, lift.
    by destruct (py_getitem rs (n - 1)). }
  split; [| split; [| exact Hnone]].
  - destruct (decide (0 < n)) as [Hn | Hn].
    + rewrite (Hsome Hn). destruct (py_getitem rs (n - 1)); eauto.
    + rewrite Hnone by lia. eauto.
  - intros Hn ->. rewrite (Hsome Hn).
    destruct (py_getitem_total rs (len rs - 1)) as [l Hl]; [lia |].
    by rewrite Hl.
Qed.

(** Decrypt on the three-rotor machine, which has no reflector, and on a
    machine whose rotor count is zero. *)
Lemma enigma_decrypt_without_reflector_witness :
  EnigmaMachine.decrypt true enigma3 2 (heap3 0 0 0)
    = (Raise (AttributeError "rotor" "decrypt"), heap3 0 0 0) ∧
  EnigmaMachine.decrypt true (EnigmaMachine.mk [] 0 4 None 3%nat []) 2
    (heap3 0 0 0)
    = (Raise (NameError "steckerboard"), heap3 0 0 0).
Proof.
  split.
  - apply (proj1 (proj2 (enigma_decrypt_without_reflector true [0; 1; 2]%nat
                           3 4 3%nat [1; 1; 1] 2 (heap3 0 0 0))));
      [lia | reflexivity].
  - apply (proj2 (proj2 (enigma_decrypt_without_reflector true [] 0 4 3%nat
                           [] 2 (heap3 0 0 0)))).
    lia.
Defined.

(** Construction of the three-rotor machine without a steckerboard. *)
Lemma enigma_default_steckerboard_fails_witness :
  EnigmaMachine.new [0; 1; 2]%nat None None None (heap3 0 0 0)
  = (Raise (TypeError "'module' object is not callable"), heap3 0 0 0).
Proof.
  apply (proj2 (enigma_default_steckerboard_fails [0; 1; 2]%nat None None
                  (heap3 0 0 0)) 0%nat (put_position 0 (identity_rotor 4)));
    reflexivity.
Defined.

Section Overrun.
Variable m : EnigmaMachine.t.
Variable h0 : heap.
Hypothesis Hok : enigma_ok m h0.

Let ls := EnigmaMachine.rotors m.
Let sp := EnigmaMachine.stepping_positions m.
Let N := EnigmaMachine.rotor_size m.

Hypothesis Hfew : len ls < N.
Hypothesis Hnotch : ∀ i l r notch,
  ls !! i = Some l -> h0 !! l = Some r -> sp !! i = Some notch ->
  position r = notch.

(** The store after the rotors in the slots below [j] have stepped by -1. *)
Let stepped (j : nat) (h : heap) : Prop :=
length h = length h0 ∧
(∀ l, l ∉ ls -> h !! l = h0 !! l) ∧
(∀ i l r0, ls !! i = Some l -> h0 !! l = Some r0 ->
   h !! l = Some (if decide (i < j)%nat
                  then put_position ((position r0 - 1) mod N) r0 else r0)).

(** When every rotor carries, the loop of [step_rotors] steps the rotors
  one after the other and then subscripts the rotor list past its end. *)
Lemma overrun_loop (n : nat) :
∀ (j : nat) (h : heap),
  (1 <= j <= length ls)%nat -> Z.of_nat j + Z.of_nat n = N ->
  stepped j h ->
  ∃ h',
    for_in (py_range (Z.of_nat j) N) (EnigmaMachine.step_rotors_body m) h
      = (Raise IndexError, h') ∧
    stepped (length ls) h'.
Proof.
induction n as [|n IH]; intros j h Hj HjN Hstepped.
- unfold len in Hfew. lia.
- rewrite py_range_cons by lia. cbn [for_in].
  destruct (slot_rotor m h0 Hok (j - 1))
    as (l & r0 & notch & Hl & Hnotch' & Hr0 & Hsz & Hpos); [fold ls; lia |].
  fold ls in Hl. fold sp in Hnotch'. fold N in Hsz, Hpos.
  assert (h !! l = Some (put_position ((position r0 - 1) mod N) r0)) as Hcur.
  { destruct Hstepped as (_ & _ & Hin). rewrite (Hin _ _ _ Hl Hr0).
    by rewrite decide_True by lia. }
  assert ((((position r0 - 1) mod N + 1) mod N =? notch) = true) as Hhit.
  { rewrite shift_unshift_mod by done. apply Z.eqb_eq. by eapply Hnotch. }
  assert (EnigmaMachine.step_rotors_body m (Z.of_nat j) h
          = (let! r' := lift (py_getitem ls (Z.of_nat j)) in
             on_rotor r' (step (-1)) >> ret Next) h) as Hbody.
  { unfold EnigmaMachine.step_rotors_body. fold ls sp N.
    replace (Z.of_nat j - 1) with (Z.of_nat (j - 1)) by lia.
    erewrite bind_run; [| by rewrite lift_run, (py_getitem_nat _ _ _ Hl)].
    erewrite bind_run; [| by apply on_rotor_get_position].
    erewrite bind_run;
      [| rewrite lift_run, py_mod_pos by lia; reflexivity].
    erewrite bind_run; [| by rewrite lift_run, (py_getitem_nat _ _ _ Hnotch')].
    cbn [position put_position]. by rewrite Hhit. }
  destruct (decide (j < length ls)%nat) as [Hjk | Hjk].
  + destruct (slot_rotor m h0 Hok j Hjk)
      as (l' & r0' & notch' & Hl' & _ & Hr0' & Hsz' & Hpos').
    fold ls in Hl'. fold N in Hsz', Hpos'.
    assert (h !! l' = Some r0') as Hcur'.
    { destruct Hstepped as (_ & _ & Hin). rewrite (Hin _ _ _ Hl' Hr0').
      by rewrite decide_False by lia. }
    destruct (IH (S j) (<[l' := put_position ((position r0' - 1) mod N) r0']> h))
      as (h' & Hrun & Hstepped').
    * lia.
    * lia.
    * by apply (after_step m h0 Hok).
    * exists h'. split; [| done].
      erewrite bind_run.
      2:{ rewrite Hbody.
          erewrite bind_run; [| by rewrite lift_run, (py_getitem_nat _ _ _ Hl')].
          erewrite bind_run.
          2:{ rewrite (on_rotor_step _ _ _ _ Hcur') by lia.
              rewrite Hsz'. reflexivity. }
          reflexivity. }
      cbn beta iota.
      replace (Z.of_nat j + 1) with (Z.of_nat (S j)) by lia.
      replace (position r0' + -1) with (position r0' - 1) by lia.
      exact Hrun.
  + assert (j = length ls) as Hjend by lia.
    exists h. split; [| by rewrite <- Hjend].
    erewrite bind_fail; [reflexivity |].
    rewrite Hbody.
    erewrite bind_fail; [reflexivity |].
    rewrite lift_run, py_getitem_past_end; [done |].
    unfold len. lia.
Qed.

Lemma step_rotors_overrun :
∃ h',
  EnigmaMachine.step_rotors m h0 = (Raise IndexError, h') ∧
  length h' = length h0 ∧
  (∀ l, l ∉ ls -> h' !! l = h0 !! l) ∧
  (∀ l r, l ∈ ls -> h0 !! l = Some r ->
     h' !! l = Some (put_position ((position r - 1) mod N) r)).
Proof.
pose proof (eo_some m h0 Hok) as Hsome. fold ls in Hsome.
destruct (slot_rotor m h0 Hok 0 Hsome)
  as (l0 & r0 & notch0 & Hl0 & _ & Hr0 & Hsz0 & Hpos0).
fold ls in Hl0. fold N in Hsz0, Hpos0.
destruct (overrun_loop (Z.to_nat (N - 1)) 1
            (<[l0 := put_position ((position r0 - 1) mod N) r0]> h0))
  as (h' & Hrun & Hlen & Hout & Hin).
- lia.
- lia.
- apply (after_step m h0 Hok); [apply (after_none m h0) | done | done].
- exists h'. split; [| split; [done | split; [done |]]].
  + unfold EnigmaMachine.step_rotors. fold ls N.
    assert (py_getitem ls 0 = Ok l0) as Hg0
      by apply (py_getitem_nat _ 0%nat _ Hl0).
    erewrite bind_run.
    2:{ erewrite bind_run; [| by rewrite lift_run, Hg0].
        rewrite (on_rotor_step _ _ _ _ Hr0) by lia. rewrite Hsz0.
        replace (position r0 + -1) with (position r0 - 1) by lia.
        reflexivity. }
    exact Hrun.
  + intros l r Hl Hr. apply list_elem_of_lookup in Hl as [i Hi].
    rewrite (Hin i l r Hi Hr).
    rewrite decide_True; [done |]. by eapply lookup_lt_Some.
Qed.
End Overrun.

(** When a machine has fewer rotors than symbols and every rotor stands at
    its notch, [step_rotors] steps every rotor by -1 and then raises
    IndexError: the carry out of the last rotor subscripts the rotor list
    past its end.  The rotors keep their new positions. *)
Theorem enigma_step_rotors_overrun (m : EnigmaMachine.t) (h : heap) :
  enigma_ok m h ->
  len (EnigmaMachine.rotors m) < EnigmaMachine.rotor_size m ->
  (∀ i l r notch,
     EnigmaMachine.rotors m !! i = Some l -> h !! l = Some r ->
     EnigmaMachine.stepping_positions m !! i = Some notch ->
     position r = notch) ->
  ∃ h',
    EnigmaMachine.step_rotors m h = (Raise IndexError, h') ∧
    length h' = length h ∧
    (∀ l, l ∉ EnigmaMachine.rotors m -> h' !! l = h !! l) ∧
    (∀ l r, l ∈ EnigmaMachine.rotors m -> h !! l = Some r ->
       h' !! l = Some (put_position
                         ((position r - 1) mod EnigmaMachine.rotor_size m) r)).
Proof.
  intros Hok Hfew Hnotch. exact (step_rotors_overrun m h Hok Hfew Hnotch).
Qed.

(** The three-rotor machine on four symbols with every rotor at its notch,
    position 1. *)
Lemma enigma_step_rotors_overrun_witness :
  enigma_ok enigma3 (heap3 1 1 1) ∧
  ∃ h',
    EnigmaMachine.step_rotors enigma3 (heap3 1 1 1) = (Raise IndexError, h') ∧
    length h' = length (heap3 1 1 1) ∧
    (∀ l, l ∉ EnigmaMachine.rotors enigma3 -> h' !! l = heap3 1 1 1 !! l) ∧
    (∀ l r, l ∈ EnigmaMachine.rotors enigma3 -> heap3 1 1 1 !! l = Some r ->
       h' !! l = Some (put_position
                         ((position r - 1) mod EnigmaMachine.rotor_size enigma3)
                         r)).
Proof.
  assert (enigma_ok enigma3 (heap3 1 1 1)) as Hok by (apply enigma3_ok; lia).
  split; [exact Hok |].
  apply (enigma_step_rotors_overrun enigma3 (heap3 1 1 1) Hok).
  - unfold len. cbn. lia.
  - intros i l r notch Hl Hr Hn.
    destruct i as [|[|[|i]]]; cbn in Hl, Hn; try done;
      injection Hl as <-; injection Hn as <-; cbn in Hr;
      by injection Hr as <-.
Defined.
